(** * StreamFeed: request construction and subscription bookkeeping

  A shallow embedding of [src/feed.ts].  Every method of [StreamFeed]
  that hands a descriptor to [client.get], [client.post] or
  [client.delete] is modelled by the descriptor it builds; a [throw]
  is an explicit outcome; the two methods that touch shared state
  ([subscribe], [unsubscribe]) thread the client through. *)

From Stdlib Require Import ZArith Ascii.
From stdpp Require Import base option list gmap strings.

(** ** JavaScript values and the string primitives the feed uses *)
Module Js.

(** The values an options object or a request body can hold:
    [boolean | number | string | string[]], plus [undefined] and
    [null].  Numbers are only ever copied, never computed with. *)
Inductive value :=
| VUndefined
| VNull
| VBool (b : bool)
| VNum (n : Z)
| VStr (s : string)
| VArr (l : list string).

(** A plain object used as a mapping from property name to value. *)
Abbreviation object := (gmap string value).

(** [!s] is [true] exactly for the empty string. *)
Definition truthy_string (s : string) : bool :=
  match s with
  | EmptyString => false
  | String _ _ => true
  end.

(** ToBoolean. *)
Definition truthy (v : value) : bool :=
  match v with
  | VUndefined | VNull => false
  | VBool b => b
  | VNum n => negb (n =? 0)%Z
  | VStr s => truthy_string s
  | VArr _ => true
  end.

(** Truthiness of an optional array argument: an array, even an empty
    one, is truthy; [undefined] is not. *)
Definition truthy_arr (o : option (list string)) : bool :=
  match o with
  | Some _ => true
  | None => false
  end.

(** [typeof v === 'number'] *)
Definition is_number (v : value) : bool :=
  match v with
  | VNum _ => true
  | _ => false
  end.

(** [Array.prototype.join] on an array of strings. *)
Fixpoint join (sep : string) (l : list string) : string :=
  match l with
  | [] => EmptyString
  | x :: rest =>
      match rest with
      | [] => x
      | _ :: _ => x +:+ sep +:+ join sep rest
      end
  end.

(** [v.join]: only arrays carry a [join] method; for primitives the
    property read yields [undefined]. *)
Definition join_method (v : value) : option (string -> string) :=
  match v with
  | VArr l => Some (fun sep => join sep l)
  | _ => None
  end.

(** [s.indexOf(c)] for a one-character needle: position of the first
    occurrence, [-1] when there is none. *)
Fixpoint indexOf (c : ascii) (s : string) : Z :=
  match s with
  | EmptyString => (-1)%Z
  | String a s' =>
      if Ascii.eqb a c then 0%Z
      else let i := indexOf c s' in
           if (i =? -1)%Z then (-1)%Z else (i + 1)%Z
  end.

(** [s.replace(c, r)] with a one-character string pattern: only the
    first occurrence is replaced. *)
Fixpoint replace (c : ascii) (r : string) (s : string) : string :=
  match s with
  | EmptyString => EmptyString
  | String a s' =>
      if Ascii.eqb a c then r +:+ s' else String a (replace c r s')
  end.

(** [arr.includes(x)] *)
Definition includes (l : list string) (x : string) : bool :=
  bool_decide (x ∈ l).

(** [{ ...a, ...b }]: the later spread wins on a shared key. *)
Definition spread (a b : object) : object := b ∪ a.

(** [`${x}`] for an optional string such as [client.appId]. *)
Definition show_opt (o : option string) : string :=
  match o with
  | Some s => s
  | None => "undefined"
  end.

End Js.

(** ** Errors thrown by the feed *)
Module errors.

Inductive exn :=
| FeedError (msg : string)
| SiteError (msg : string)
| Error (msg : string).

(** The specification's taxonomy of locally raised errors. *)
Inductive kind := ValidationError | ConfigError.

(** [FeedError] and the plain [Error] of [updateActivityToTargets]
    report a rejected argument; [SiteError] reports missing client
    configuration. *)
Definition kind_of (e : exn) : kind :=
  match e with
  | FeedError _ | Error _ => ValidationError
  | SiteError _ => ConfigError
  end.

(** Outcome of a call: it throws or it returns. *)
Inductive outcome (A : Type) :=
| Throw (e : exn)
| Return (a : A).
Arguments Throw {A} e.
Arguments Return {A} a.

Definition bind {A B} (m : outcome A) (k : A -> outcome B) : outcome B :=
  match m with
  | Throw e => Throw e
  | Return a => k a
  end.

Definition throws {A} (m : outcome A) : Prop := ∃ e, m = Throw e.

End errors.
Export errors (exn(..), kind(..), outcome(..)).

Notation "'run' m 'in' k" := (errors.bind m (fun _ => k))
  (at level 10, m at level 100, k at level 200).

(** ** The realtime transport (faye), by its subscribe/cancel contract *)
Module Faye.

(** A callback is only stored and handed on; it is never called here. *)
Inductive Callback := Handler (n : nat).

(** The handle returned by [client.subscribe(channel, callback)]. *)
Record Subscription := {
  handle : nat;
  channel : string;
  callback : Callback;
}.

(** The transport keeps the subscriptions that are open; every
    [subscribe] opens a new one under a fresh handle. *)
Record Client := {
  fresh : nat;
  active : gmap nat Subscription;
}.

Definition subscribe (ch : string) (cb : Callback) (c : Client)
  : Subscription * Client :=
  let s := {| handle := fresh c; channel := ch; callback := cb |} in
  (s, {| fresh := S (fresh c); active := <[fresh c := s]> (active c) |}).

(** [subscription.cancel()] *)
Definition cancel (s : Subscription) (c : Client) : Client :=
  {| fresh := fresh c; active := delete (handle s) (active c) |}.

Definition is_active (s : Subscription) (c : Client) : Prop :=
  active c !! handle s = Some s.

End Faye.

(** ** The parts of [StreamClient] the feed reads and writes *)
Module Client.

(** An entry of [client.subscriptions]. *)
Record StreamSubscription := {
  token : string;
  userId : string;
  fayeSubscription : Faye.Subscription;
}.

(** [appId] may be unset; [subscriptions] is the registry shared by all
    feeds of the client; [fayeClient] is what [getFayeClient()] returns. *)
Record StreamClient := {
  appId : option string;
  subscriptions : gmap string StreamSubscription;
  fayeClient : Faye.Client;
}.

End Client.

(** ** Request descriptors handed to the transport *)
Module Request.

Inductive verb := GET | POST | DELETE.

(** [qs] and [body] are [None] when the descriptor has no such key. *)
Record t := {
  method : verb;
  url : string;
  qs : option Js.object;
  body : option Js.object;
  signature : string;
}.

End Request.

(** ** The feed *)
Module Feed.

(** The double-quote character, for the error messages that quote code. *)
Definition dq : string := String (ascii_of_nat 34) EmptyString.

(** The fields of a [StreamFeed].  The [client] field is a reference to
    the shared client; the methods below take the client as an argument
    where they read or write it. *)
Record StreamFeed := {
  token : string;
  id : string;
  slug : string;
  userId : string;
  feedUrl : string;
  feedTogether : string;
  signature : string;
  notificationChannel : string;
}.

(** What [utils.validateUserId] can be handed: a string, or (through
    the cast in [follow]) an object that is not a [StreamUser]. *)
Inductive userIdArg :=
| IdString (s : string)
| IdObject (id : string).

(** [`${x}`]: an object without a [toString] of its own prints as
    [[object Object]]. *)
Definition show_userId (a : userIdArg) : string :=
  match a with
  | IdString s => s
  | IdObject _ => "[object Object]"
  end.

(** The second argument of [follow]: [string | { id: string }], where
    an object may or may not be an instance of [StreamUser]. *)
Inductive followTarget :=
| TargetId (s : string)
| TargetUser (id : string)
| TargetObject (id : string).

(** The argument of [removeActivity]: [string | { foreignId: string }]. *)
Inductive activityRef :=
| ActivityId (s : string)
| ForeignRef (foreignId : string).

(** [(activityId as { foreignId: string }).foreignId]; a string has no
    such property. *)
Definition foreignId_of (a : activityRef) : option string :=
  match a with
  | ActivityId _ => None
  | ForeignRef fid => Some fid
  end.

Definition show_activityRef (a : activityRef) : string :=
  match a with
  | ActivityId s => s
  | ForeignRef _ => "[object Object]"
  end.

(** Truthiness of a property read that may yield [undefined]. *)
Definition truthy_opt (o : option string) : bool :=
  match o with
  | Some s => Js.truthy_string s
  | None => false
  end.

(** [callback] applied to each element in order; a [throw] inside the
    callback leaves the loop. *)
Fixpoint forEach {A} (l : list A) (callback : A -> outcome unit)
  : outcome unit :=
  match l with
  | [] => Return tt
  | x :: rest => run callback x in forEach rest callback
  end.

Section methods.

(** Modelled from the spec: [utils.validateFeedSlug] and
    [utils.validateUserId] live in [utils], which is not part of the
    sources at hand.  The spec has both fail with a validation error on
    an empty or ill-formed argument; the rule itself is left open here:
    [Some msg] is the message of the error thrown, [None] a pass. *)
Variable feedSlugRule : string -> option string.
Variable userIdRule : userIdArg -> option string.

(** The two client collaborators of [get], from [client].  Both are
    handed the caller's options object itself and may rewrite it in
    place, so each is given by the object it leaves behind:
    [replaceReactionOptions] returns nothing else, and
    [shouldUseEnrichEndpoint] also answers whether the enrich endpoint
    is to be used. *)
Variable replaceReactionOptions : Js.object -> Js.object.
Variable shouldUseEnrichEndpoint : Js.object -> bool * Js.object.

Definition validateFeedSlug (feedSlug : string) : outcome unit :=
  match feedSlugRule feedSlug with
  | Some msg => Throw (FeedError msg)
  | None => Return tt
  end.

Definition validateUserId (userId : userIdArg) : outcome unit :=
  match userIdRule userId with
  | Some msg => Throw (FeedError msg)
  | None => Return tt
  end.

Definition constructor (client : Client.StreamClient)
  (feedSlug userId : string) (token : option string) : outcome StreamFeed :=
  if negb (Js.truthy_string feedSlug) || negb (Js.truthy_string userId) then
    Throw (FeedError ("Please provide a feed slug and user id, ie client.feed("
      +:+ dq +:+ "user" +:+ dq +:+ ", " +:+ dq +:+ "1" +:+ dq +:+ ")"))
  else if negb (Js.indexOf ":" feedSlug =? -1)%Z then
    Throw (FeedError ("Please initialize the feed using client.feed("
      +:+ dq +:+ "user" +:+ dq +:+ ", " +:+ dq +:+ "1" +:+ dq
      +:+ ") not client.feed(" +:+ dq +:+ "user:1" +:+ dq +:+ ")"))
  else
    run validateFeedSlug feedSlug in
    run validateUserId (IdString userId) in
    match token with
    | Some tok =>
        if negb (Js.truthy_string tok) then
          Throw (FeedError
            "Missing token, in client side mode please provide a feed secret")
        else
          let this_id := feedSlug +:+ ":" +:+ userId in
          let this_feedUrl := Js.replace ":" "/" this_id in
          let this_feedTogether := Js.replace ":" EmptyString this_id in
          Return {|
            slug := feedSlug;
            userId := userId;
            id := this_id;
            token := tok;
            feedUrl := this_feedUrl;
            feedTogether := this_feedTogether;
            signature := this_feedTogether +:+ " " +:+ tok;
            notificationChannel :=
              "site-" +:+ Js.show_opt (Client.appId client) +:+ "-feed-"
              +:+ this_feedTogether;
          |}
    | None =>
        Throw (FeedError
          "Missing token, in client side mode please provide a feed secret")
    end.

Definition removeActivity (this : StreamFeed) (activityId : activityRef)
  : Request.t :=
  {| Request.method := Request.DELETE;
     Request.url :=
       "feed/" +:+ feedUrl this +:+ "/"
       +:+ (if truthy_opt (foreignId_of activityId)
            then Js.show_opt (foreignId_of activityId)
            else show_activityRef activityId)
       +:+ "/";
     Request.qs :=
       Some (if truthy_opt (foreignId_of activityId)
             then {[ "foreign_id" := Js.VStr "1" ]}
             else ∅);
     Request.body := None;
     Request.signature := signature this |}.

Definition follow (this : StreamFeed) (targetSlug : string)
  (targetUserId : followTarget) (options : Js.object) : outcome Request.t :=
  let targetUserId :=
    match targetUserId with
    | TargetUser uid => IdString uid
    | TargetId s => IdString s
    | TargetObject oid => IdObject oid
    end in
  run validateFeedSlug targetSlug in
  run validateUserId targetUserId in
  let body : Js.object :=
    {[ "target" := Js.VStr (targetSlug +:+ ":" +:+ show_userId targetUserId) ]} in
  let body :=
    match options !! "limit" with
    | Some v => if Js.is_number v then <["activity_copy_limit" := v]> body
                else body
    | None => body
    end in
  Return {| Request.method := Request.POST;
            Request.url := "feed/" +:+ feedUrl this +:+ "/following/";
            Request.qs := None;
            Request.body := Some body;
            Request.signature := signature this |}.

Definition get (this : StreamFeed) (options : Js.object) : Request.t :=
  let extraOptions : Js.object := ∅ in
  let extraOptions :=
    match options !! "mark_read" with
    | Some v =>
        if Js.truthy v then
          match Js.join_method v with
          | Some join => <["mark_read" := Js.VStr (join ",")]> extraOptions
          | None => extraOptions
          end
        else extraOptions
    | None => extraOptions
    end in
  let extraOptions :=
    match options !! "mark_seen" with
    | Some v =>
        if Js.truthy v then
          match Js.join_method v with
          | Some join => <["mark_seen" := Js.VStr (join ",")]> extraOptions
          | None => extraOptions
          end
        else extraOptions
    | None => extraOptions
    end in
  let options := replaceReactionOptions options in
  let '(enrich, options) := shouldUseEnrichEndpoint options in
  let path := if enrich then "enrich/feed/" else "feed/" in
  {| Request.method := Request.GET;
     Request.url := path +:+ feedUrl this +:+ "/";
     Request.qs := Some (Js.spread options extraOptions);
     Request.body := None;
     Request.signature := signature this |}.

(** [options || {}]: the caller may leave [options] out. *)
Definition getActivityDetail (this : StreamFeed) (activityId : string)
  (options : option Js.object) : Request.t :=
  get this
    (Js.spread
       (<["id_lte" := Js.VStr activityId]>
          (<["id_gte" := Js.VStr activityId]>
             {[ "limit" := Js.VNum 1 ]}))
       (default ∅ options)).

Definition subscribe (this : StreamFeed) (callback : Faye.Callback)
  (client : Client.StreamClient)
  : outcome Faye.Subscription * Client.StreamClient :=
  if negb (truthy_opt (Client.appId client)) then
    (Throw (SiteError
       "Missing app id, which is needed to subscribe, use var client = stream.connect(key, secret, appId);"),
     client)
  else
    let '(subscription, faye) :=
      Faye.subscribe ("/" +:+ notificationChannel this) callback
        (Client.fayeClient client) in
    (Return subscription,
     {| Client.appId := Client.appId client;
        Client.subscriptions :=
          <["/" +:+ notificationChannel this :=
              {| Client.token := token this;
                 Client.userId := notificationChannel this;
                 Client.fayeSubscription := subscription |}]>
            (Client.subscriptions client);
        Client.fayeClient := faye |}).

Definition unsubscribe (this : StreamFeed) (client : Client.StreamClient)
  : outcome unit * Client.StreamClient :=
  match Client.subscriptions client !! ("/" +:+ notificationChannel this) with
  | Some streamSubscription =>
      (Return tt,
       {| Client.appId := Client.appId client;
          Client.subscriptions :=
            delete ("/" +:+ notificationChannel this)
              (Client.subscriptions client);
          Client.fayeClient :=
            Faye.cancel (Client.fayeSubscription streamSubscription)
              (Client.fayeClient client) |})
  | None => (Return tt, client)
  end.

Definition updateActivityToTargets (this : StreamFeed)
  (foreignId time : string)
  (newTargets addedTargets removedTargets : option (list string))
  : outcome Request.t :=
  if negb (Js.truthy_string foreignId) then
    Throw (Error "Missing `foreign_id` parameter!")
  else if negb (Js.truthy_string time) then
    Throw (Error "Missing `time` parameter!")
  else if negb (Js.truthy_arr newTargets)
          && negb (Js.truthy_arr addedTargets)
          && negb (Js.truthy_arr removedTargets) then
    Throw (Error ("Requires you to provide at least one parameter for `newTargets`, `addedTargets`, or `removedTargets` - example: `updateActivityToTargets("
      +:+ dq +:+ "foreignID:1234" +:+ dq
      +:+ ", new Date(), [newTargets...], [addedTargets...], [removedTargets...])`"))
  else
    run (if Js.truthy_arr newTargets then
           if Js.truthy_arr addedTargets || Js.truthy_arr removedTargets then
             Throw (Error
               "Can't include add_targets or removedTargets if you're also including newTargets")
           else Return tt
         else Return tt) in
    run (match addedTargets, removedTargets with
         | Some added, Some removed =>
             forEach added (fun addedTarget =>
               if Js.includes removed addedTarget then
                 Throw (Error
                   "Can't have the same feed ID in addedTargets and removedTargets.")
               else Return tt)
         | _, _ => Return tt
         end) in
    let body : Js.object :=
      <["foreign_id" := Js.VStr foreignId]> {[ "time" := Js.VStr time ]} in
    let body :=
      match newTargets with
      | Some l => <["new_targets" := Js.VArr l]> body
      | None => body
      end in
    let body :=
      match addedTargets with
      | Some l => <["added_targets" := Js.VArr l]> body
      | None => body
      end in
    let body :=
      match removedTargets with
      | Some l => <["removed_targets" := Js.VArr l]> body
      | None => body
      end in
    Return {| Request.method := Request.POST;
              Request.url :=
                "feed_targets/" +:+ feedUrl this +:+ "/activity_to_targets/";
              Request.qs := None;
              Request.body := Some body;
              Request.signature := signature this |}.

End methods.

(** *** The remaining request builders *)

(** The options of [following] and [followers]:
    [{ filter?: string[]; limit?: number; offset?: number }]. *)
Module GetFollowOptions.

Record t := {
  filter : option (list string);
  limit : option Z;
  offset : option Z;
}.

(** The options as the object the spread copies: a key is present
    exactly when the caller gave it. *)
Definition object (o : t) : Js.object :=
  let obj : Js.object := ∅ in
  let obj :=
    match filter o with
    | Some l => <["filter" := Js.VArr l]> obj
    | None => obj
    end in
  let obj :=
    match limit o with
    | Some n => <["limit" := Js.VNum n]> obj
    | None => obj
    end in
  match offset o with
  | Some n => <["offset" := Js.VNum n]> obj
  | None => obj
  end.

End GetFollowOptions.

(** [typeof v === 'boolean'] *)
Definition is_boolean (v : Js.value) : bool :=
  match v with
  | Js.VBool _ => true
  | _ => false
  end.

Section more_methods.

Variable feedSlugRule : string -> option string.
Variable userIdRule : userIdArg -> option string.

(** [utils.replaceStreamObjects], from [utils], on a flat activity. *)
Variable replaceStreamObjects : Js.object -> Js.object.

(** [currentUser] stands for [client.currentUser]: [Some ref] when the
    client has a current user whose [ref()] is [ref]. *)
Definition addActivity (this : StreamFeed) (currentUser : option string)
  (activity : Js.object) : Request.t :=
  let activity := replaceStreamObjects activity in
  let actor_truthy :=
    match activity !! "actor" with
    | Some v => Js.truthy v
    | None => false
    end in
  let activity :=
    match negb actor_truthy, currentUser with
    | true, Some ref => <["actor" := Js.VStr ref]> activity
    | _, _ => activity
    end in
  {| Request.method := Request.POST;
     Request.url := "feed/" +:+ feedUrl this +:+ "/";
     Request.qs := None;
     Request.body := Some activity;
     Request.signature := signature this |}.

Definition unfollow (this : StreamFeed) (targetSlug targetUserId : string)
  (options : Js.object) : outcome Request.t :=
  let qs : Js.object := ∅ in
  let qs :=
    match options !! "keepHistory" with
    | Some v =>
        if is_boolean v && Js.truthy v
        then <["keep_history" := Js.VStr "1"]> qs
        else qs
    | None => qs
    end in
  run validateFeedSlug feedSlugRule targetSlug in
  run validateUserId userIdRule (IdString targetUserId) in
  let targetFeedId := targetSlug +:+ ":" +:+ targetUserId in
  Return {| Request.method := Request.DELETE;
            Request.url :=
              "feed/" +:+ feedUrl this +:+ "/following/" +:+ targetFeedId
              +:+ "/";
            Request.qs := Some qs;
            Request.body := None;
            Request.signature := signature this |}.

Definition following (this : StreamFeed) (options : GetFollowOptions.t)
  : Request.t :=
  let extraOptions : Js.object := ∅ in
  let extraOptions :=
    match GetFollowOptions.filter options with
    | Some l => <["filter" := Js.VStr (Js.join "," l)]> extraOptions
    | None => extraOptions
    end in
  {| Request.method := Request.GET;
     Request.url := "feed/" +:+ feedUrl this +:+ "/following/";
     Request.qs :=
       Some (Js.spread (GetFollowOptions.object options) extraOptions);
     Request.body := None;
     Request.signature := signature this |}.

Definition followers (this : StreamFeed) (options : GetFollowOptions.t)
  : Request.t :=
  let extraOptions : Js.object := ∅ in
  let extraOptions :=
    match GetFollowOptions.filter options with
    | Some l => <["filter" := Js.VStr (Js.join "," l)]> extraOptions
    | None => extraOptions
    end in
  {| Request.method := Request.GET;
     Request.url := "feed/" +:+ feedUrl this +:+ "/followers/";
     Request.qs :=
       Some (Js.spread (GetFollowOptions.object options) extraOptions);
     Request.body := None;
     Request.signature := signature this |}.

End more_methods.

End Feed.

(** ** Notions the properties are stated with *)
Module Spec.

(** [s] contains the character [c]. *)
Fixpoint contains (c : ascii) (s : string) : bool :=
  match s with
  | EmptyString => false
  | String a s' => Ascii.eqb a c || contains c s'
  end.

(** The serialized form of a marking option: an array of feed ids is
    sent as its comma-joined string; any other value has no override. *)
Definition serialized_mark (options : Js.object) (key : string)
  : option Js.value :=
  match options !! key with
  | Some (Js.VArr ids) => Some (Js.VStr (Js.join "," ids))
  | _ => None
  end.

(** The two serialized marking overrides of an options object. *)
Definition marking_overrides (options : Js.object) : Js.object :=
  match serialized_mark options "mark_read",
        serialized_mark options "mark_seen" with
  | Some r, Some s => {[ "mark_read" := r; "mark_seen" := s ]}
  | Some r, None => {[ "mark_read" := r ]}
  | None, Some s => {[ "mark_seen" := s ]}
  | None, None => ∅
  end.

(** The options object as the client's two calls in [get] leave it:
    first the reaction rewrite, then the endpoint predicate. *)
Definition client_rewrite
  (replaceReactionOptions : Js.object -> Js.object)
  (shouldUseEnrichEndpoint : Js.object -> bool * Js.object)
  (options : Js.object) : Js.object :=
  (shouldUseEnrichEndpoint (replaceReactionOptions options)).2.

(** Shallow union in which the keys of [overrides] win. *)
Definition shallow_union (raw overrides : Js.object) : Js.object :=
  union_with (fun o _ => Some o) overrides raw.

(** The options [getActivityDetail] is said to read the feed with:
    the cursor pinned on the activity and a limit of one, merged with
    the caller's options. *)
Definition detail_options (activityId : string) (options : option Js.object)
  : Js.object :=
  shallow_union
    {[ "id_lte" := Js.VStr activityId;
       "id_gte" := Js.VStr activityId;
       "limit" := Js.VNum 1 ]}
    (default ∅ options).

(** Two target lists share an element. *)
Definition overlap (added removed : list string) : Prop :=
  ∃ x, x ∈ added ∧ x ∈ removed.

(** The id [follow] is said to extract from its target argument. *)
Definition target_id (t : Feed.followTarget) : string :=
  match t with
  | Feed.TargetId s => s
  | Feed.TargetUser uid => uid
  | Feed.TargetObject oid => oid
  end.

(** What [follow] actually validates and prints. *)
Definition target_arg (t : Feed.followTarget) : Feed.userIdArg :=
  match t with
  | Feed.TargetId s => Feed.IdString s
  | Feed.TargetUser uid => Feed.IdString uid
  | Feed.TargetObject oid => Feed.IdObject oid
  end.

(** The registry key of a feed's channel. *)
Definition channel_key (f : Feed.StreamFeed) : string :=
  "/" +:+ Feed.notificationChannel f.

(** A client whose registry and transport agree: every registered handle
    is open in the transport on the channel it is registered under, two
    channels never share a handle, and the transport has not yet issued
    the handles from [fresh] on. *)
Record consistent (c : Client.StreamClient) : Prop := {
  registered_open :
    ∀ k e, Client.subscriptions c !! k = Some e →
      Faye.is_active (Client.fayeSubscription e) (Client.fayeClient c)
      ∧ Faye.channel (Client.fayeSubscription e) = k;
  handles_distinct :
    ∀ k1 k2 e1 e2,
      Client.subscriptions c !! k1 = Some e1 →
      Client.subscriptions c !! k2 = Some e2 →
      Faye.handle (Client.fayeSubscription e1)
        = Faye.handle (Client.fayeSubscription e2) →
      k1 = k2;
  handles_issued :
    ∀ h s, Faye.active (Client.fayeClient c) !! h = Some s →
      h < Faye.fresh (Client.fayeClient c) ∧ Faye.handle s = h;
}.

(** A call on a feed's subscription interface. *)
Inductive call :=
| Subscribe (callback : Faye.Callback)
| Unsubscribe.

(** The client after a sequence of calls on one feed; a call that throws
    leaves the client as it was. *)
Fixpoint after (f : Feed.StreamFeed) (calls : list call)
  (c : Client.StreamClient) : Client.StreamClient :=
  match calls with
  | [] => c
  | Subscribe cb :: rest => after f rest (Feed.subscribe f cb c).2
  | Unsubscribe :: rest => after f rest (Feed.unsubscribe f c).2
  end.

(** The open handles of the transport on a given channel. *)
Definition open_on (ch : string) (c : Client.StreamClient)
  : list Faye.Subscription :=
  filter (fun s => Faye.channel s = ch)
    (map_to_list (Faye.active (Client.fayeClient c))).*2.

(** The last character of a string, if it has one. *)
Fixpoint last_char (s : string) : option ascii :=
  match s with
  | EmptyString => None
  | String a s' =>
      match s' with
      | EmptyString => Some a
      | String _ _ => last_char s'
      end
  end.

(** A value is an array. *)
Definition is_array (v : Js.value) : bool :=
  match v with
  | Js.VArr _ => true
  | _ => false
  end.

(** The handle [h] is the one registered under some channel. *)
Definition registered (h : nat) (c : Client.StreamClient) : Prop :=
  ∃ k e, Client.subscriptions c !! k = Some e
         ∧ Faye.handle (Client.fayeSubscription e) = h.

End Spec.

(** ** A concrete instance, to run the methods on examples *)
Module Sample.

(** Letters, digits and the underscore. *)
Definition word_char (c : ascii) : bool :=
  let n := nat_of_ascii c in
  (Nat.leb 48 n && Nat.leb n 57)
  || (Nat.leb 65 n && Nat.leb n 90)
  || (Nat.leb 97 n && Nat.leb n 122)
  || Nat.eqb n 95.

Fixpoint all_chars (p : ascii -> bool) (s : string) : bool :=
  match s with
  | EmptyString => true
  | String a s' => p a && all_chars p s'
  end.

(** Modelled from the spec: [utils.validateFeedSlug] is not part of the
    sources at hand; it rejects a slug that is empty or has a character
    outside the allowed set, taken here to be letters, digits and [_]. *)
Definition feedSlugRule (feedSlug : string) : option string :=
  if Js.truthy_string feedSlug && all_chars word_char feedSlug then None
  else Some "Invalid feedSlug, please use letters, numbers or _".

(** Modelled from the spec: [utils.validateUserId] is not part of the
    sources at hand; the same rule with [-] allowed as well, applied to
    the printed form of its argument. *)
Definition userIdRule (userId : Feed.userIdArg) : option string :=
  let s := Feed.show_userId userId in
  if Js.truthy_string s
     && all_chars (fun c => word_char c || Ascii.eqb c "-") s
  then None
  else Some "Invalid userId, please use letters, numbers, - or _".

(** A stand-in for the client's rewrite of the reaction options: the
    shorthand [ownReactions] is sent as [withOwnReactions]. *)
Definition replaceReactionOptions (options : Js.object) : Js.object :=
  match options !! "ownReactions" with
  | Some v => <["withOwnReactions" := v]> (delete "ownReactions" options)
  | None => options
  end.

(** Modelled from the spec: [client.shouldUseEnrichEndpoint] is not
    part of the sources at hand; the spec has the client rewrite the
    options in place and decide by a predicate whether the enrich
    endpoint is used.  Here an [enrich] option that is not [undefined]
    decides and is consumed: it is deleted from the options and so is
    not sent.  Without one the plain endpoint is used. *)
Definition shouldUseEnrichEndpoint (options : Js.object)
  : bool * Js.object :=
  match options !! "enrich" with
  | Some Js.VUndefined | None => (false, options)
  | Some v => (Js.truthy v, delete "enrich" options)
  end.

(** A client with an app id, no subscription yet. *)
Definition client : Client.StreamClient :=
  {| Client.appId := Some "42";
     Client.subscriptions := ∅;
     Client.fayeClient := {| Faye.fresh := 0; Faye.active := ∅ |} |}.

(** The same client without an app id. *)
Definition client_no_app : Client.StreamClient :=
  {| Client.appId := None;
     Client.subscriptions := ∅;
     Client.fayeClient := {| Faye.fresh := 0; Faye.active := ∅ |} |}.

(** [client.feed("user", "1")] with token [secret]. *)
Definition feed : Feed.StreamFeed :=
  {| Feed.token := "secret";
     Feed.id := "user:1";
     Feed.slug := "user";
     Feed.userId := "1";
     Feed.feedUrl := "user/1";
     Feed.feedTogether := "user1";
     Feed.signature := "user1 secret";
     Feed.notificationChannel := "site-42-feed-user1" |}.

(** [{ mark_read: ["a", "b"], mark_seen: true, ownReactions: true }] *)
Definition options : Js.object :=
  {[ "mark_read" := Js.VArr ["a"; "b"];
     "mark_seen" := Js.VBool true;
     "ownReactions" := Js.VBool true ]}.

(** [{ enrich: true, limit: 5 }] *)
Definition enrich_options : Js.object :=
  {[ "enrich" := Js.VBool true; "limit" := Js.VNum 5 ]}.

Definition follow := Feed.follow feedSlugRule userIdRule.
Definition get := Feed.get replaceReactionOptions shouldUseEnrichEndpoint.
Definition constructor := Feed.constructor feedSlugRule userIdRule.

(** [client.feed("ab", "c")] and [client.feed("a", "bc")]: two feeds
    with the same joined form. *)
Definition feed_ab_c : Feed.StreamFeed :=
  {| Feed.token := "secret";
     Feed.id := "ab:c";
     Feed.slug := "ab";
     Feed.userId := "c";
     Feed.feedUrl := "ab/c";
     Feed.feedTogether := "abc";
     Feed.signature := "abc secret";
     Feed.notificationChannel := "site-42-feed-abc" |}.

Definition feed_a_bc : Feed.StreamFeed :=
  {| Feed.token := "secret";
     Feed.id := "a:bc";
     Feed.slug := "a";
     Feed.userId := "bc";
     Feed.feedUrl := "a/bc";
     Feed.feedTogether := "abc";
     Feed.signature := "abc secret";
     Feed.notificationChannel := "site-42-feed-abc" |}.

(** A stand-in for [utils.replaceStreamObjects] on a flat activity,
    which has no stream object to replace. *)
Definition replaceStreamObjects (activity : Js.object) : Js.object :=
  activity.

Definition unfollow := Feed.unfollow feedSlugRule userIdRule.

(** [{ filter: ["user:1", "user:2"], limit: 10 }] *)
Definition follow_options : Feed.GetFollowOptions.t :=
  {| Feed.GetFollowOptions.filter := Some ["user:1"; "user:2"];
     Feed.GetFollowOptions.limit := Some 10%Z;
     Feed.GetFollowOptions.offset := None |}.

End Sample.

(** * Properties *)

(** ** String primitives *)

Lemma truthy_string_false (s : string) :
  Js.truthy_string s = false ↔ s = EmptyString.
Proof. destruct s; simpl; split; congruence. Qed.

Lemma truthy_string_true (s : string) :
  Js.truthy_string s = true ↔ s ≠ EmptyString.
Proof. destruct s; simpl; split; congruence. Qed.

Lemma indexOf_ge (c : ascii) (s : string) : (-1 ≤ Js.indexOf c s)%Z.
Proof.
  induction s as [|a s IH]; simpl; [lia|].
  destruct (Ascii.eqb a c); [lia|].
  destruct (Z.eqb_spec (Js.indexOf c s) (-1)); lia.
Qed.

(** [indexOf] answers [-1] exactly when the character does not occur. *)
Lemma indexOf_contains (c : ascii) (s : string) :
  (Js.indexOf c s =? -1)%Z = negb (Spec.contains c s).
Proof.
  induction s as [|a s IH]; simpl; [done|].
  destruct (Ascii.eqb a c); simpl; [done|].
  rewrite <- IH. pose proof (indexOf_ge c s).
  destruct (Z.eqb_spec (Js.indexOf c s) (-1)); [done|].
  apply Z.eqb_neq. lia.
Qed.

(** [contains] means what it says. *)
Lemma contains_split (c : ascii) (s : string) :
  Spec.contains c s = true ↔ ∃ s1 s2, s = s1 +:+ String c s2.
Proof.
  induction s as [|a s IH]; simpl.
  - split; [done|]. intros ([|??] & s2 & H); discriminate.
  - rewrite orb_true_iff, IH. split.
    + intros [H|(s1 & s2 & ->)].
      * apply Ascii.eqb_eq in H as ->. by exists EmptyString, s.
      * by exists (String a s1), s2.
    + intros ([|b s1] & s2 & H); simpl in H; injection H as -> ->.
      * left. apply Ascii.eqb_refl.
      * right. eauto.
Qed.

(** Replacing the first [c] of [s1 + c + s2] when [s1] has none. *)
Lemma replace_separator (c : ascii) (r s1 s2 : string) :
  Spec.contains c s1 = false →
  Js.replace c r (s1 +:+ String c s2) = s1 +:+ r +:+ s2.
Proof.
  induction s1 as [|a s1 IH]; simpl.
  - intros _. by rewrite Ascii.eqb_refl.
  - intros [Ha Hs]%orb_false_iff. rewrite Ha, IH by done. done.
Qed.


(** ** Outcomes *)

Lemma throws_Throw {A} (e : exn) : errors.throws (@Throw A e).
Proof. by exists e. Qed.

Lemma throws_Return {A} (a : A) : ¬ errors.throws (Return a).
Proof. intros [e He]. discriminate. Qed.

Create HintDb feed.
#[local] Hint Resolve throws_Throw throws_Return : feed.

Section feed_properties.

Variable feedSlugRule : string → option string.
Variable userIdRule : Feed.userIdArg → option string.
Variable replaceReactionOptions : Js.object → Js.object.
Variable shouldUseEnrichEndpoint : Js.object → bool * Js.object.

(** ** Construction *)

(** C1. For every valid slug, user id and token the constructor returns
    a feed whose id is [slug:userId], whose url path is [slug/userId],
    whose joined form is [slug ++ userId], whose signature is the joined
    form, a space and the token, and whose channel is
    [site-<appId>-feed-<joined>].  The result depends on the client
    through its app id only, so constructing again from the same inputs
    gives the same feed; no method takes the feed other than as a
    read-only argument. *)
Theorem constructor_identity (client : Client.StreamClient)
    (slug userId tok : string) :
  slug ≠ EmptyString →
  userId ≠ EmptyString →
  Spec.contains ":" slug = false →
  tok ≠ EmptyString →
  feedSlugRule slug = None →
  userIdRule (Feed.IdString userId) = None →
  ∃ f,
    Feed.constructor feedSlugRule userIdRule client slug userId (Some tok)
      = Return f
    ∧ Feed.slug f = slug ∧ Feed.userId f = userId ∧ Feed.token f = tok
    ∧ Feed.id f = slug +:+ ":" +:+ userId
    ∧ Feed.feedUrl f = slug +:+ "/" +:+ userId
    ∧ Feed.feedTogether f = slug +:+ userId
    ∧ Feed.signature f = (slug +:+ userId) +:+ " " +:+ tok
    ∧ Feed.notificationChannel f
        = "site-" +:+ Js.show_opt (Client.appId client) +:+ "-feed-"
          +:+ (slug +:+ userId)
    ∧ ∀ client',
        Client.appId client' = Client.appId client →
        Feed.constructor feedSlugRule userIdRule client' slug userId (Some tok)
          = Return f.
Proof.
  intros Hslug Huser Hcolon Htok Hs Hu.
  apply truthy_string_true in Hslug, Huser, Htok.
  assert (Hctor : ∀ cl,
    Feed.constructor feedSlugRule userIdRule cl slug userId (Some tok)
    = Return {|
        Feed.token := tok;
        Feed.id := slug +:+ ":" +:+ userId;
        Feed.slug := slug;
        Feed.userId := userId;
        Feed.feedUrl := slug +:+ "/" +:+ userId;
        Feed.feedTogether := slug +:+ userId;
        Feed.signature := (slug +:+ userId) +:+ " " +:+ tok;
        Feed.notificationChannel :=
          "site-" +:+ Js.show_opt (Client.appId cl) +:+ "-feed-"
          +:+ (slug +:+ userId) |}).
  { intros cl. unfold Feed.constructor, Feed.validateFeedSlug,
      Feed.validateUserId.
    rewrite Hslug, Huser, indexOf_contains, Hcolon, Hs, Hu, Htok. simpl.
    change (slug +:+ ":" +:+ userId) with (slug +:+ String ":" userId).
    rewrite !replace_separator by done. done. }
  eexists. split; [apply Hctor|]. simpl. repeat split.
  intros client' Happ. rewrite Hctor, Happ. done.
Qed.

(** C4. The constructor throws exactly when the slug is empty, the user
    id is empty, the slug contains a colon, the token is absent or
    empty, or one of the two validators rejects its argument; whatever
    it throws is a validation error, and a call that throws returns no
    feed. *)
Theorem constructor_validation (client : Client.StreamClient)
    (slug userId : string) (token : option string) :
  let made := Feed.constructor feedSlugRule userIdRule client slug userId token in
  (errors.throws made ↔
     slug = EmptyString ∨ userId = EmptyString
     ∨ Spec.contains ":" slug = true
     ∨ token = None ∨ token = Some EmptyString
     ∨ is_Some (feedSlugRule slug)
     ∨ is_Some (userIdRule (Feed.IdString userId)))
  ∧ (∀ e, made = Throw e → errors.kind_of e = ValidationError)
  ∧ (errors.throws made → ∀ f, made ≠ Return f).
Proof.
  cbv zeta. unfold Feed.constructor, Feed.validateFeedSlug,
    Feed.validateUserId. rewrite indexOf_contains, negb_involutive.
  destruct slug as [|a slug']; [| set (slug := String a slug')];
  [|destruct userId as [|b uid']; [|set (uid := String b uid')]];
  simpl Js.truthy_string; simpl negb; simpl orb; cbv iota.
  1,2: split_and!; [split; eauto with feed | intros e [= <-]; done
                   | intros _ f; discriminate].
  destruct (Spec.contains ":" slug) eqn:Hc; cbv iota.
  { split_and!; [split; eauto 6 with feed | intros e [= <-]; done
                | intros _ f; discriminate]. }
  destruct (feedSlugRule slug) as [m1|] eqn:Hs; simpl.
  { split_and!; [split; eauto 8 with feed | intros e [= <-]; done
                | intros _ f; discriminate]. }
  destruct (userIdRule (Feed.IdString uid)) as [m2|] eqn:Hu; simpl.
  { split_and!; [split; eauto 9 with feed | intros e [= <-]; done
                | intros _ f; discriminate]. }
  destruct token as [[|c tok]|]; simpl.
  1,3: split_and!; [split; eauto 8 with feed | intros e [= <-]; done
                   | intros _ f; discriminate].
  split_and!.
  - split; [intros []%throws_Return|].
    intros [?|[?|[?|[?|[?|[[]|[]]]]]]]; discriminate.
  - discriminate.
  - intros []%throws_Return.
Qed.

(** ** removeActivity *)

(** C5, as amended.  A string id [s] is deleted at [feed/<urlPath>/s/]
    with an empty query; an object with a non-empty [foreignId] is
    deleted at [feed/<urlPath>/<foreignId>/] with [foreign_id=1]; and for
    every argument the flag is set exactly when the path segment is the
    argument's [foreignId], so the two modes exclude each other. *)
Theorem removeActivity_modes (f : Feed.StreamFeed) :
  (∀ s,
     Feed.removeActivity f (Feed.ActivityId s)
     = {| Request.method := Request.DELETE;
          Request.url := "feed/" +:+ Feed.feedUrl f +:+ "/" +:+ s +:+ "/";
          Request.qs := Some ∅;
          Request.body := None;
          Request.signature := Feed.signature f |})
  ∧ (∀ fid,
       fid ≠ EmptyString →
       Feed.removeActivity f (Feed.ForeignRef fid)
       = {| Request.method := Request.DELETE;
            Request.url := "feed/" +:+ Feed.feedUrl f +:+ "/" +:+ fid +:+ "/";
            Request.qs := Some {[ "foreign_id" := Js.VStr "1" ]};
            Request.body := None;
            Request.signature := Feed.signature f |})
  ∧ (∀ a,
       let r := Feed.removeActivity f a in
       (Request.qs r = Some ∅
        ∧ Request.qs r ≠ Some {[ "foreign_id" := Js.VStr "1" ]}
        ∧ Request.url r
          = "feed/" +:+ Feed.feedUrl f +:+ "/" +:+ Feed.show_activityRef a
            +:+ "/")
       ∨ (Request.qs r = Some {[ "foreign_id" := Js.VStr "1" ]}
          ∧ ∃ fid, a = Feed.ForeignRef fid ∧ fid ≠ EmptyString
            ∧ Request.url r
              = "feed/" +:+ Feed.feedUrl f +:+ "/" +:+ fid +:+ "/")).
Proof.
  split_and!.
  - done.
  - intros fid Hfid%truthy_string_true. unfold Feed.removeActivity. simpl.
    by rewrite Hfid.
  - intros [s|fid]; simpl; [by left|].
    destruct (Js.truthy_string fid) eqn:Hfid; [right|by left].
    split; [done|]. exists fid. by rewrite <- truthy_string_true.
Qed.

(** C10. The foreign-id mode is chosen by the truthiness of [foreignId]:
    the flag is set exactly when [foreignId] is non-empty, and for an
    empty [foreignId] the call still returns a request, with no flag and
    with the printed form of the whole argument as its path segment. *)
Theorem removeActivity_truthiness (f : Feed.StreamFeed) (fid : string) :
  (Request.qs (Feed.removeActivity f (Feed.ForeignRef fid))
   = Some {[ "foreign_id" := Js.VStr "1" ]} ↔ fid ≠ EmptyString)
  ∧ Feed.removeActivity f (Feed.ForeignRef EmptyString)
    = {| Request.method := Request.DELETE;
         Request.url :=
           "feed/" +:+ Feed.feedUrl f +:+ "/" +:+ "[object Object]" +:+ "/";
         Request.qs := Some ∅;
         Request.body := None;
         Request.signature := Feed.signature f |}.
Proof.
  split; [|done]. simpl. rewrite <- truthy_string_true.
  destruct (Js.truthy_string fid); split; done.
Qed.

(** ** follow *)

(** C8, as amended.  [follow] validates the slug and then its second
    argument, where only a [StreamUser] is replaced by its id; any other
    object is validated and printed as it is.  It throws, with a
    validation error, exactly when a validator rejects; otherwise it
    posts to [feed/<urlPath>/following/] a body holding [target] and,
    exactly when [options.limit] is a number, [activity_copy_limit] with
    that number, and no other key. *)
Theorem follow_request (f : Feed.StreamFeed) (targetSlug : string)
    (t : Feed.followTarget) (options : Js.object) :
  let arg := Spec.target_arg t in
  let sent := Feed.follow feedSlugRule userIdRule f targetSlug t options in
  (∀ s, t = Feed.TargetId s ∨ t = Feed.TargetUser s → arg = Feed.IdString s)
  ∧ (∀ oid, t = Feed.TargetObject oid → arg = Feed.IdObject oid)
  ∧ (errors.throws sent ↔
       is_Some (feedSlugRule targetSlug) ∨ is_Some (userIdRule arg))
  ∧ (∀ e, sent = Throw e → errors.kind_of e = ValidationError)
  ∧ (∀ r, sent = Return r →
       Request.method r = Request.POST
       ∧ Request.url r = "feed/" +:+ Feed.feedUrl f +:+ "/following/"
       ∧ Request.qs r = None
       ∧ Request.signature r = Feed.signature f
       ∧ ∃ b, Request.body r = Some b
         ∧ b !! "target"
           = Some (Js.VStr (targetSlug +:+ ":" +:+ Feed.show_userId arg))
         ∧ (∀ n, options !! "limit" = Some (Js.VNum n) →
              b !! "activity_copy_limit" = Some (Js.VNum n))
         ∧ ((∀ n, options !! "limit" ≠ Some (Js.VNum n)) →
              b !! "activity_copy_limit" = None)
         ∧ (∀ k, k ≠ "target" → k ≠ "activity_copy_limit" → b !! k = None)).
Proof.
  cbv zeta. split_and!.
  - intros s [->| ->]; done.
  - by intros oid ->.
  - unfold Feed.follow, Feed.validateFeedSlug, Feed.validateUserId.
    fold (Spec.target_arg t).
    destruct (feedSlugRule targetSlug); simpl; [split; eauto with feed|].
    destruct (userIdRule (Spec.target_arg t)); simpl;
      [split; eauto with feed|].
    split; [intros []%throws_Return|]. intros [[]|[]]; discriminate.
  - unfold Feed.follow, Feed.validateFeedSlug, Feed.validateUserId.
    destruct (feedSlugRule targetSlug); simpl; [by intros e [= <-]|].
    destruct (userIdRule _); simpl; [by intros e [= <-]|]. discriminate.
  - unfold Feed.follow, Feed.validateFeedSlug, Feed.validateUserId.
    fold (Spec.target_arg t).
    destruct (feedSlugRule targetSlug); simpl; [discriminate|].
    destruct (userIdRule _); simpl; [discriminate|].
    intros r [= <-]. simpl. split_and!; try done.
    eexists. split; [done|].
    destruct (options !! "limit") as [v|] eqn:Hlimit.
    + destruct v; simpl; split_and!; try done;
        try (by intros; simplify_map_eq).
      intros H. by destruct (H n).
    + split_and!; try done. by intros; simplify_map_eq.
Qed.

(** ** get *)

Lemma shallow_union_lookup (raw overrides : Js.object) (k : string) :
  Spec.shallow_union raw overrides !! k
  = match overrides !! k with
    | Some v => Some v
    | None => raw !! k
    end.
Proof.
  unfold Spec.shallow_union. rewrite lookup_union_with.
  destruct (overrides !! k), (raw !! k); done.
Qed.

Lemma spread_shallow_union (a b : Js.object) :
  Js.spread a b = Spec.shallow_union a b.
Proof. done. Qed.

Lemma marking_overrides_lookup (options : Js.object) (k : string) :
  Spec.marking_overrides options !! k
  = if bool_decide (k = "mark_read" ∨ k = "mark_seen")
    then Spec.serialized_mark options k
    else None.
Proof.
  unfold Spec.marking_overrides.
  destruct (Spec.serialized_mark options "mark_read") as [r|] eqn:Hr,
           (Spec.serialized_mark options "mark_seen") as [s|] eqn:Hs;
    case_bool_decide as Hk;
    try (destruct Hk as [-> | ->]); simplify_map_eq; try done.
  all: apply not_or_and in Hk as [??]; by simplify_map_eq.
Qed.

(** The overrides [get] collects are the serialized marking options. *)
Lemma get_qs (f : Feed.StreamFeed) (options : Js.object) :
  Request.qs (Feed.get replaceReactionOptions shouldUseEnrichEndpoint f options)
  = Some (Spec.shallow_union
            (Spec.client_rewrite replaceReactionOptions
               shouldUseEnrichEndpoint options)
            (Spec.marking_overrides options)).
Proof.
  unfold Feed.get, Spec.client_rewrite. cbv zeta.
  destruct (shouldUseEnrichEndpoint (replaceReactionOptions options))
    as [enrich left_options].
  simpl Request.qs. f_equal.
  rewrite spread_shallow_union. f_equal.
  unfold Spec.marking_overrides, Spec.serialized_mark.
  destruct (options !! "mark_read") as [[| |[]|n|[]|]|];
    destruct (options !! "mark_seen") as [[| |[]|m|[]|]|];
    simpl; try done;
    try (destruct (negb (n =? 0)%Z)); try (destruct (negb (m =? 0)%Z));
    try done.
  all: by rewrite insert_commute.
Qed.

(** C2, as amended.  The query [get] transmits is the shallow union of
    the options object, as the client's reaction rewrite and endpoint
    predicate have left it, with the two serialized marking overrides
    of the caller's options, an override winning over a key of the same
    name; it is the union with the caller's own options where the
    client leaves the object alone.  An array under [mark_read] or
    [mark_seen] is replaced by its comma-joined string; [true] and
    ["current"] have no override and pass through as they are where
    the client leaves that key alone. *)
Theorem get_query (f : Feed.StreamFeed) (options : Js.object) :
  let raw :=
    Spec.client_rewrite replaceReactionOptions shouldUseEnrichEndpoint
      options in
  let overrides := Spec.marking_overrides options in
  ∃ q,
    Request.qs
      (Feed.get replaceReactionOptions shouldUseEnrichEndpoint f options)
      = Some q
    ∧ q = Spec.shallow_union raw overrides
    ∧ (raw = options → q = Spec.shallow_union options overrides)
    ∧ (∀ k, q !! k = match overrides !! k with
                     | Some v => Some v
                     | None => raw !! k
                     end)
    ∧ (∀ k, is_Some (overrides !! k) → k = "mark_read" ∨ k = "mark_seen")
    ∧ (∀ k ids,
         k = "mark_read" ∨ k = "mark_seen" →
         options !! k = Some (Js.VArr ids) →
         q !! k = Some (Js.VStr (Js.join "," ids)))
    ∧ (∀ k v,
         k = "mark_read" ∨ k = "mark_seen" →
         v = Js.VBool true ∨ v = Js.VStr "current" →
         options !! k = Some v →
         raw !! k = options !! k →
         q !! k = Some v).
Proof.
  cbv zeta. eexists. split; [apply get_qs|]. split; [done|]. split_and!.
  - by intros ->.
  - apply shallow_union_lookup.
  - intros k. rewrite marking_overrides_lookup.
    case_bool_decide; [done|]. by intros [].
  - intros k ids Hk Hids.
    rewrite shallow_union_lookup, marking_overrides_lookup.
    rewrite bool_decide_eq_true_2 by done.
    unfold Spec.serialized_mark. by rewrite Hids.
  - intros k v Hk Hv Hopt Hraw.
    rewrite shallow_union_lookup, marking_overrides_lookup.
    rewrite bool_decide_eq_true_2 by done.
    unfold Spec.serialized_mark. rewrite Hraw, Hopt.
    by destruct Hv as [-> | ->].
Qed.

(** ** getActivityDetail *)

(** C9. [getActivityDetail] returns what [get] returns on the caller's
    options merged over [id_lte = id_gte = activityId] and [limit = 1]:
    a key of the caller wins, and the three defaults fill in the rest. *)
Theorem getActivityDetail_get (f : Feed.StreamFeed) (activityId : string)
    (options : option Js.object) :
  Feed.getActivityDetail replaceReactionOptions shouldUseEnrichEndpoint
    f activityId options
  = Feed.get replaceReactionOptions shouldUseEnrichEndpoint f
      (Spec.detail_options activityId options)
  ∧ ∀ k,
      Spec.detail_options activityId options !! k
      = match default ∅ options !! k with
        | Some v => Some v
        | None =>
            if bool_decide (k = "id_lte" ∨ k = "id_gte")
            then Some (Js.VStr activityId)
            else if bool_decide (k = "limit") then Some (Js.VNum 1)
            else None
        end.
Proof.
  split; [done|]. intros k. unfold Spec.detail_options.
  rewrite shallow_union_lookup.
  destruct (default ∅ options !! k); [done|].
  repeat case_bool_decide; try (destruct_or!); simplify_map_eq; try done.
Qed.

(** ** updateActivityToTargets *)

(** The pairwise scan throws as soon as an added target is also a
    removed one, and runs to the end otherwise. *)
Lemma forEach_scan (added removed : list string) (e : exn) :
  let scan :=
    Feed.forEach added (fun addedTarget =>
      if Js.includes removed addedTarget then Throw e else Return tt) in
  (scan = Throw e ∧ Spec.overlap added removed)
  ∨ (scan = Return tt ∧ ¬ Spec.overlap added removed).
Proof.
  cbv zeta. induction added as [|a added IH]; simpl.
  - right. split; [done|]. intros (x & Hx & _). by apply elem_of_nil in Hx.
  - destruct (Js.includes removed a) eqn:Ha; simpl;
      [apply bool_decide_eq_true in Ha|apply bool_decide_eq_false in Ha].
    + left. split; [done|]. exists a. split; [apply elem_of_cons; by left|done].
    + destruct IH as [[-> (x & Hx & Hr)]|[-> Hno]].
      * left. split; [done|]. exists x. split; [apply elem_of_cons; by right|done].
      * right. split; [done|]. intros (x & Hx & Hr).
        apply elem_of_cons in Hx as [->|Hx]; [done|].
        apply Hno. by exists x.
Qed.

(** C3. [updateActivityToTargets] throws exactly when [foreignId] is
    empty, [time] is empty, no target list is given, [newTargets] comes
    with [addedTargets] or [removedTargets], or the added and removed
    targets overlap; what it throws is a validation error and no request
    is built.  Otherwise it posts a body with [foreign_id], [time] and
    each target list that was given, and nothing else. *)
Theorem updateActivityToTargets_validation (f : Feed.StreamFeed)
    (foreignId time : string)
    (newTargets addedTargets removedTargets : option (list string)) :
  let sent :=
    Feed.updateActivityToTargets f foreignId time
      newTargets addedTargets removedTargets in
  (errors.throws sent ↔
     foreignId = EmptyString ∨ time = EmptyString
     ∨ (newTargets = None ∧ addedTargets = None ∧ removedTargets = None)
     ∨ (is_Some newTargets ∧ (is_Some addedTargets ∨ is_Some removedTargets))
     ∨ (∃ added removed,
          addedTargets = Some added ∧ removedTargets = Some removed
          ∧ Spec.overlap added removed))
  ∧ (∀ e, sent = Throw e → errors.kind_of e = ValidationError)
  ∧ (∀ r, sent = Return r →
       Request.method r = Request.POST
       ∧ Request.url r
         = "feed_targets/" +:+ Feed.feedUrl f +:+ "/activity_to_targets/"
       ∧ Request.qs r = None
       ∧ Request.signature r = Feed.signature f
       ∧ ∃ b, Request.body r = Some b
         ∧ b !! "foreign_id" = Some (Js.VStr foreignId)
         ∧ b !! "time" = Some (Js.VStr time)
         ∧ b !! "new_targets" = Js.VArr <$> newTargets
         ∧ b !! "added_targets" = Js.VArr <$> addedTargets
         ∧ b !! "removed_targets" = Js.VArr <$> removedTargets
         ∧ (∀ k, k ∉ ["foreign_id"; "time"; "new_targets"; "added_targets";
                      "removed_targets"] → b !! k = None)).
Proof.
  cbv zeta. unfold Feed.updateActivityToTargets.
  destruct foreignId as [|c0 fid'] eqn:Hfid; simpl Js.truthy_string; simpl negb;
    cbv iota.
  { split_and!; [split; eauto with feed | by intros e [= <-] | discriminate]. }
  rewrite <- Hfid.
  destruct time as [|c1 time'] eqn:Htime; simpl Js.truthy_string; simpl negb;
    cbv iota.
  { split_and!; [split; eauto with feed | by intros e [= <-] | discriminate]. }
  rewrite <- Htime.
  assert (Hf : foreignId ≠ EmptyString) by by subst.
  assert (Ht : time ≠ EmptyString) by by subst.
  clear Hfid Htime.
  destruct newTargets as [new|], addedTargets as [added|],
    removedTargets as [removed|]; simpl.
  1-3, 8: split_and!;
    [split; [intros _|eauto with feed]; eauto 10
    | by intros e [= <-] | discriminate].
  - (* newTargets alone *)
    split_and!; [split; [intros []%throws_Return|] | discriminate |].
    + intros [?|[?|[(?&?&?)|[[_ [[]|[]]]|(?&?&?&?&?)]]]]; done.
    + intros r [= <-]. simpl. split_and!; try done.
      eexists. split_and!; try done. intros k Hk.
      rewrite !not_elem_of_cons in Hk. destruct_and!. by simplify_map_eq.
  - (* addedTargets and removedTargets *)
    destruct (forEach_scan added removed
      (Error "Can't have the same feed ID in addedTargets and removedTargets."))
      as [[-> Hov]|[-> Hno]]; simpl.
    + split_and!; [split; [intros _|eauto with feed]
                  | by intros e [= <-] | discriminate].
      do 4 right. by exists added, removed.
    + split_and!; [split; [intros []%throws_Return|] | discriminate |].
      * intros [?|[?|[(?&?&?)|[[[] _]|(a&r&[= <-]&[= <-]&?)]]]]; done.
      * intros r [= <-]. simpl. split_and!; try done.
        eexists. split_and!; try done. intros k Hk.
        rewrite !not_elem_of_cons in Hk. destruct_and!. by simplify_map_eq.
  - (* addedTargets alone *)
    split_and!; [split; [intros []%throws_Return|] | discriminate |].
    + intros [?|[?|[(?&?&?)|[[[] _]|(?&?&?&?&?)]]]]; done.
    + intros r [= <-]. simpl. split_and!; try done.
      eexists. split_and!; try done. intros k Hk.
      rewrite !not_elem_of_cons in Hk. destruct_and!. by simplify_map_eq.
  - (* removedTargets alone *)
    split_and!; [split; [intros []%throws_Return|] | discriminate |].
    + intros [?|[?|[(?&?&?)|[[[] _]|(?&?&?&?&?)]]]]; done.
    + intros r [= <-]. simpl. split_and!; try done.
      eexists. split_and!; try done. intros k Hk.
      rewrite !not_elem_of_cons in Hk. destruct_and!. by simplify_map_eq.
Qed.

End feed_properties.

(** ** subscribe and unsubscribe *)

Lemma truthy_opt_false (o : option string) :
  Feed.truthy_opt o = false ↔ o = None ∨ o = Some EmptyString.
Proof.
  destruct o as [[|??]|]; simpl; split; try done; eauto.
  all: intros [|]; done.
Qed.

(** What a [subscribe] that passes the app-id check does to the client. *)
Lemma subscribe_ok (f : Feed.StreamFeed) (cb : Faye.Callback)
    (c : Client.StreamClient) :
  Feed.truthy_opt (Client.appId c) = true →
  let s := {| Faye.handle := Faye.fresh (Client.fayeClient c);
              Faye.channel := Spec.channel_key f;
              Faye.callback := cb |} in
  Feed.subscribe f cb c
  = (Return s,
     {| Client.appId := Client.appId c;
        Client.subscriptions :=
          <[Spec.channel_key f :=
              {| Client.token := Feed.token f;
                 Client.userId := Feed.notificationChannel f;
                 Client.fayeSubscription := s |}]>
            (Client.subscriptions c);
        Client.fayeClient :=
          {| Faye.fresh := S (Faye.fresh (Client.fayeClient c));
             Faye.active :=
               <[Faye.fresh (Client.fayeClient c) := s]>
                 (Faye.active (Client.fayeClient c)) |} |}).
Proof. intros Happ. unfold Feed.subscribe. by rewrite Happ. Qed.

Lemma subscribe_consistent (f : Feed.StreamFeed) (cb : Faye.Callback)
    (c : Client.StreamClient) :
  Spec.consistent c → Spec.consistent (Feed.subscribe f cb c).2.
Proof.
  intros [Hopen Hdist Hissued].
  destruct (Feed.truthy_opt (Client.appId c)) eqn:Happ;
    [|unfold Feed.subscribe; rewrite Happ; by split].
  rewrite subscribe_ok by done. simpl.
  set (n := Faye.fresh (Client.fayeClient c)).
  assert (Hold : ∀ k e, Client.subscriptions c !! k = Some e →
            Faye.handle (Client.fayeSubscription e) ≠ n).
  { intros k e He. destruct (Hopen k e He) as [Hact _].
    apply Hissued in Hact as [Hlt _]. unfold n. lia. }
  split; simpl.
  - intros k e. unfold Faye.is_active. simpl.
    destruct (decide (Spec.channel_key f = k)) as [<-|Hk].
    + rewrite lookup_insert_eq. intros [= <-]. simpl.
      by rewrite lookup_insert_eq.
    + rewrite lookup_insert_ne by done. intros He.
      rewrite lookup_insert_ne by (symmetry; by eapply Hold).
      by apply Hopen.
  - intros k1 k2 e1 e2.
    destruct (decide (Spec.channel_key f = k1)) as [<-|Hk1],
             (decide (Spec.channel_key f = k2)) as [<-|Hk2];
      rewrite ?lookup_insert_eq, ?lookup_insert_ne by done; try done.
    + intros [= <-] He2 Heq. simpl in Heq. symmetry in Heq.
      by apply Hold in He2.
    + intros He1 [= <-] Heq. simpl in Heq. by apply Hold in He1.
    + apply Hdist.
  - intros h s. destruct (decide (n = h)) as [<-|Hh].
    + rewrite lookup_insert_eq. intros [= <-]. simpl. split; [lia|done].
    + rewrite lookup_insert_ne by done. intros Hs.
      apply Hissued in Hs as [??]. split; [fold n in H; lia|done].
Qed.

Lemma unsubscribe_consistent (f : Feed.StreamFeed) (c : Client.StreamClient) :
  Spec.consistent c → Spec.consistent (Feed.unsubscribe f c).2.
Proof.
  intros [Hopen Hdist Hissued]. unfold Feed.unsubscribe.
  fold (Spec.channel_key f).
  destruct (Client.subscriptions c !! Spec.channel_key f) as [e0|] eqn:He0;
    [|by split].
  split; simpl.
  - intros k e [Hk He]%lookup_delete_Some. unfold Faye.is_active. simpl.
    rewrite lookup_delete_ne; [by apply Hopen|].
    intros Heq. apply Hk. by eapply Hdist.
  - intros k1 k2 e1 e2 [_ He1]%lookup_delete_Some [_ He2]%lookup_delete_Some.
    by apply Hdist.
  - intros h s [_ Hs]%lookup_delete_Some. by apply Hissued.
Qed.

Lemma after_consistent (f : Feed.StreamFeed) (calls : list Spec.call)
    (c : Client.StreamClient) :
  Spec.consistent c → Spec.consistent (Spec.after f calls c).
Proof.
  revert c. induction calls as [|[cb|] calls IH]; intros c Hc; simpl.
  - done.
  - by apply IH, subscribe_consistent.
  - by apply IH, unsubscribe_consistent.
Qed.

(** C7. Without a configured app id [subscribe] throws a configuration
    error and leaves the client, its transport and its registry as they
    were.  [unsubscribe] never throws: with no registry entry for the
    feed's channel it changes nothing; with an entry it deletes the
    entry and cancels the entry's handle, which is then no longer open. *)
Theorem subscribe_unsubscribe_contract (f : Feed.StreamFeed)
    (cb : Faye.Callback) (c : Client.StreamClient) :
  (Client.appId c = None ∨ Client.appId c = Some EmptyString →
     ∃ e, Feed.subscribe f cb c = (Throw e, c)
          ∧ errors.kind_of e = ConfigError)
  ∧ (Client.subscriptions c !! Spec.channel_key f = None →
       Feed.unsubscribe f c = (Return tt, c))
  ∧ (∀ entry,
       Client.subscriptions c !! Spec.channel_key f = Some entry →
       ∃ c',
         Feed.unsubscribe f c = (Return tt, c')
         ∧ Client.appId c' = Client.appId c
         ∧ Client.subscriptions c'
           = delete (Spec.channel_key f) (Client.subscriptions c)
         ∧ Client.subscriptions c' !! Spec.channel_key f = None
         ∧ Client.fayeClient c'
           = Faye.cancel (Client.fayeSubscription entry) (Client.fayeClient c)
         ∧ Faye.active (Client.fayeClient c')
             !! Faye.handle (Client.fayeSubscription entry) = None
         ∧ ¬ Faye.is_active (Client.fayeSubscription entry)
               (Client.fayeClient c')).
Proof.
  split_and!.
  - intros Happ%truthy_opt_false. unfold Feed.subscribe. rewrite Happ.
    simpl. eauto.
  - intros Hnone. unfold Feed.unsubscribe. fold (Spec.channel_key f).
    by rewrite Hnone.
  - intros entry Hentry. unfold Feed.unsubscribe.
    fold (Spec.channel_key f). rewrite Hentry.
    eexists. split; [done|]. simpl. split_and!; try done.
    + apply lookup_delete_eq.
    + apply lookup_delete_eq.
    + unfold Faye.is_active. simpl. by rewrite lookup_delete_eq.
Qed.

(** C6, as amended.  The registry keeps one entry per channel, and after
    any sequence of [subscribe] and [unsubscribe] calls on a feed every
    registered handle is open on its channel.  A second [subscribe]
    without an [unsubscribe] in between is not rejected and cancels
    nothing: it opens a second handle and overwrites the entry, so both
    handles are open and [unsubscribe] then cancels the second one
    only. *)
Theorem double_subscribe_overwrites (f : Feed.StreamFeed)
    (cb1 cb2 : Faye.Callback) (c : Client.StreamClient) :
  Feed.truthy_opt (Client.appId c) = true →
  Spec.consistent c →
  (∀ calls, Spec.consistent (Spec.after f calls c))
  ∧ ∃ h1 h2 c1 c2 c3,
      Feed.subscribe f cb1 c = (Return h1, c1)
      ∧ Feed.subscribe f cb2 c1 = (Return h2, c2)
      ∧ Feed.unsubscribe f c2 = (Return tt, c3)
      ∧ Faye.handle h1 ≠ Faye.handle h2
      ∧ Faye.channel h1 = Spec.channel_key f
      ∧ Faye.channel h2 = Spec.channel_key f
      ∧ Client.fayeSubscription
          <$> Client.subscriptions c1 !! Spec.channel_key f = Some h1
      ∧ Client.fayeSubscription
          <$> Client.subscriptions c2 !! Spec.channel_key f = Some h2
      ∧ Faye.is_active h1 (Client.fayeClient c2)
      ∧ Faye.is_active h2 (Client.fayeClient c2)
      ∧ Client.subscriptions c3 !! Spec.channel_key f = None
      ∧ ¬ Faye.is_active h2 (Client.fayeClient c3)
      ∧ Faye.is_active h1 (Client.fayeClient c3).
Proof.
  intros Happ Hc. split; [intros calls; by apply after_consistent|].
  do 5 eexists.
  split; [by apply subscribe_ok|].
  split; [by apply subscribe_ok|].
  unfold Feed.unsubscribe. fold (Spec.channel_key f). simpl.
  rewrite lookup_insert_eq. split; [done|].
  unfold Faye.is_active. simpl.
  set (n := Faye.fresh (Client.fayeClient c)).
  assert (n ≠ S n) by lia. assert (S n ≠ n) by lia.
  split_and!; try done; simplify_map_eq; done.
Qed.

(** * The properties at work on the sample feed *)

Lemma sample_constructor :
  Sample.constructor Sample.client "user" "1" (Some "secret")
  = Return Sample.feed.
Proof. reflexivity. Qed.

Lemma sample_client_consistent : Spec.consistent Sample.client.
Proof. split; simpl; intros *; by rewrite lookup_empty. Qed.

Lemma constructor_identity_witness :
  ∃ f,
    Sample.constructor Sample.client "user" "1" (Some "secret") = Return f
    ∧ Feed.id f = "user:1"
    ∧ Feed.feedUrl f = "user/1"
    ∧ Feed.feedTogether f = "user1"
    ∧ Feed.signature f = "user1 secret"
    ∧ Feed.notificationChannel f = "site-42-feed-user1".
Proof.
  destruct (constructor_identity Sample.feedSlugRule Sample.userIdRule
              Sample.client "user" "1" "secret")
    as (f & Hf & _ & _ & _ & Hid & Hurl & Hjoin & Hsig & Hchan & _);
    [discriminate | discriminate | reflexivity | discriminate
    | reflexivity | reflexivity |].
  exists f. repeat split; assumption.
Defined.

Lemma constructor_validation_witness :
  errors.throws
    (Sample.constructor Sample.client "us:er" "1" (Some "secret"))
  ∧ errors.throws (Sample.constructor Sample.client "user" "1" None).
Proof.
  split.
  - apply (constructor_validation Sample.feedSlugRule Sample.userIdRule
             Sample.client "us:er" "1" (Some "secret")).
    right; right; left. reflexivity.
  - apply (constructor_validation Sample.feedSlugRule Sample.userIdRule
             Sample.client "user" "1" None).
    right; right; right; left. reflexivity.
Defined.

Lemma removeActivity_modes_witness :
  Request.url (Feed.removeActivity Sample.feed (Feed.ActivityId "abc"))
    = "feed/user/1/abc/"
  ∧ Request.qs (Feed.removeActivity Sample.feed (Feed.ActivityId "abc"))
    = Some ∅
  ∧ Request.url (Feed.removeActivity Sample.feed (Feed.ForeignRef "abc"))
    = "feed/user/1/abc/"
  ∧ Request.qs (Feed.removeActivity Sample.feed (Feed.ForeignRef "abc"))
    = Some {[ "foreign_id" := Js.VStr "1" ]}.
Proof.
  destruct (removeActivity_modes Sample.feed) as (Hid & Hforeign & _).
  rewrite (Hid "abc"), (Hforeign "abc") by discriminate.
  repeat split; reflexivity.
Defined.

(** The claim C5 as stated fails for an empty [foreignId]: the argument
    has the object shape, yet no flag is set and the path segment is the
    printed object. *)
Lemma removeActivity_shape_counterexample :
  Request.qs (Feed.removeActivity Sample.feed (Feed.ForeignRef EmptyString))
    ≠ Some {[ "foreign_id" := Js.VStr "1" ]}
  ∧ Request.qs (Feed.removeActivity Sample.feed (Feed.ForeignRef EmptyString))
    = Some ∅
  ∧ Request.url (Feed.removeActivity Sample.feed (Feed.ForeignRef EmptyString))
    = "feed/user/1/[object Object]/".
Proof. repeat split. discriminate. Qed.

Lemma follow_request_witness :
  ∃ r b,
    Sample.follow Sample.feed "user" (Feed.TargetUser "2")
      {[ "limit" := Js.VNum 5 ]} = Return r
    ∧ Request.body r = Some b
    ∧ b !! "target" = Some (Js.VStr "user:2")
    ∧ b !! "activity_copy_limit" = Some (Js.VNum 5).
Proof.
  destruct (follow_request Sample.feedSlugRule Sample.userIdRule
              Sample.feed "user" (Feed.TargetUser "2")
              {[ "limit" := Js.VNum 5 ]})
    as (_ & _ & _ & _ & Hret).
  destruct (Hret _ eq_refl) as (_ & _ & _ & _ & b & Hb & Htarget & Hlimit & _).
  eexists _, b. split; [reflexivity|]. split; [exact Hb|].
  split; [exact Htarget|]. apply Hlimit. reflexivity.
Defined.

(** The claim C8 as stated fails for an object that is not a
    [StreamUser]: its id, ["2"], would pass both validators, yet the
    call throws; and whatever the validators are, the call never posts
    the target [user:2]. *)
Lemma follow_object_counterexample :
  Sample.feedSlugRule "user" = None
  ∧ Sample.userIdRule
      (Feed.IdString (Spec.target_id (Feed.TargetObject "2"))) = None
  ∧ errors.throws
      (Sample.follow Sample.feed "user" (Feed.TargetObject "2") ∅)
  ∧ ¬ ∃ slugRule idRule r,
        Feed.follow slugRule idRule Sample.feed "user"
          (Feed.TargetObject "2") ∅ = Return r
        ∧ Request.body r = Some {[ "target" := Js.VStr "user:2" ]}.
Proof.
  split_and!; [reflexivity | reflexivity | by eexists |].
  intros (slugRule & idRule & r & Hr & Hbody).
  unfold Feed.follow, Feed.validateFeedSlug, Feed.validateUserId in Hr.
  destruct (slugRule "user"); [discriminate|].
  destruct (idRule (Feed.IdObject "2")); [discriminate|].
  simpl in Hr. injection Hr as <-. simpl in Hbody.
  rewrite lookup_empty in Hbody. apply (inj Some) in Hbody.
  apply (f_equal (.!! "target")) in Hbody.
  rewrite !lookup_singleton_eq in Hbody. discriminate.
Qed.

Lemma get_query_witness :
  ∃ q,
    Request.qs (Sample.get Sample.feed Sample.options) = Some q
    ∧ q !! "mark_read" = Some (Js.VStr "a,b")
    ∧ q !! "mark_seen" = Some (Js.VBool true).
Proof.
  destruct (get_query Sample.replaceReactionOptions
              Sample.shouldUseEnrichEndpoint Sample.feed Sample.options)
    as (q & Hq & _ & _ & _ & _ & Harray & Hpass).
  exists q. split; [exact Hq|]. split.
  - apply (Harray "mark_read" ["a"; "b"]); [by left | reflexivity].
  - apply (Hpass "mark_seen" (Js.VBool true));
      [by right | by left | reflexivity | reflexivity].
Defined.

Lemma sample_get_enrich_false :
  Feed.get Sample.replaceReactionOptions Sample.shouldUseEnrichEndpoint
    Sample.feed {[ "enrich" := Js.VBool false; "limit" := Js.VNum 5 ]}
  = {| Request.method := Request.GET;
       Request.url := "feed/user/1/";
       Request.qs := Some {[ "limit" := Js.VNum 5 ]};
       Request.body := None;
       Request.signature := "user1 secret" |}.
Proof. reflexivity. Qed.

(** The claim C2 as stated fails for [{ enrich: true, limit: 5 }]: the
    client consumes [enrich] when it decides the endpoint, so the query
    sent is [{ limit: 5 }], not the union of the caller's options with
    the (here empty) marking overrides. *)
Lemma get_raw_options_counterexample :
  Request.url (Sample.get Sample.feed Sample.enrich_options)
    = "enrich/feed/user/1/"
  ∧ Request.qs (Sample.get Sample.feed Sample.enrich_options)
    = Some {[ "limit" := Js.VNum 5 ]}
  ∧ Spec.marking_overrides Sample.enrich_options = ∅
  ∧ Request.qs (Sample.get Sample.feed Sample.enrich_options)
    ≠ Some (Spec.shallow_union Sample.enrich_options
              (Spec.marking_overrides Sample.enrich_options)).
Proof.
  split_and!; [reflexivity | reflexivity | reflexivity |].
  intros H. apply (inj Some) in H.
  apply (f_equal (.!! "enrich")) in H. vm_compute in H. discriminate.
Qed.

Lemma updateActivityToTargets_validation_witness :
  errors.throws
    (Feed.updateActivityToTargets Sample.feed "fid" "2024" None
       (Some ["x"]) (Some ["x"]))
  ∧ ∃ r b,
      Feed.updateActivityToTargets Sample.feed "fid" "2024" None
        (Some ["x"]) (Some ["y"]) = Return r
      ∧ Request.body r = Some b
      ∧ b !! "foreign_id" = Some (Js.VStr "fid")
      ∧ b !! "time" = Some (Js.VStr "2024")
      ∧ b !! "added_targets" = Some (Js.VArr ["x"])
      ∧ b !! "removed_targets" = Some (Js.VArr ["y"])
      ∧ b !! "new_targets" = None.
Proof.
  split.
  - apply (updateActivityToTargets_validation Sample.feed "fid" "2024" None
             (Some ["x"]) (Some ["x"])).
    do 4 right. exists ["x"], ["x"]. split; [reflexivity|].
    split; [reflexivity|]. exists "x". split; apply elem_of_cons; left;
      reflexivity.
  - destruct (updateActivityToTargets_validation Sample.feed "fid" "2024" None
                (Some ["x"]) (Some ["y"])) as (_ & _ & Hret).
    destruct (Hret _ eq_refl)
      as (_ & _ & _ & _ & b & Hb & Hfid & Htime & Hnew & Hadded & Hremoved & _).
    eexists _, b. split; [reflexivity|]. repeat split; assumption.
Defined.

Lemma subscribe_unsubscribe_contract_witness :
  (∃ e,
     Feed.subscribe Sample.feed (Faye.Handler 1) Sample.client_no_app
       = (Throw e, Sample.client_no_app)
     ∧ errors.kind_of e = ConfigError)
  ∧ Feed.unsubscribe Sample.feed Sample.client_no_app
    = (Return tt, Sample.client_no_app).
Proof.
  destruct (subscribe_unsubscribe_contract Sample.feed (Faye.Handler 1)
              Sample.client_no_app) as (Hsub & Hnone & _).
  split.
  - apply Hsub. left. reflexivity.
  - apply Hnone. reflexivity.
Defined.

Lemma double_subscribe_overwrites_witness :
  ∃ h1 h2 c1 c2,
    Feed.subscribe Sample.feed (Faye.Handler 1) Sample.client = (Return h1, c1)
    ∧ Feed.subscribe Sample.feed (Faye.Handler 2) c1 = (Return h2, c2)
    ∧ Faye.is_active h1 (Client.fayeClient c2)
    ∧ Faye.is_active h2 (Client.fayeClient c2).
Proof.
  destruct (double_subscribe_overwrites Sample.feed (Faye.Handler 1)
              (Faye.Handler 2) Sample.client)
    as (_ & h1 & h2 & c1 & c2 & c3 & H1 & H2 & _ & _ & _ & _ & _ & _
          & Hopen1 & Hopen2 & _);
    [reflexivity | exact sample_client_consistent |].
  exists h1, h2, c1, c2. repeat split; assumption.
Defined.

(** The claim C6 as stated fails: the second [subscribe] on the sample
    feed is not rejected, and the first handle is still open after it,
    while the registry points at the second handle only; the channel
    then has two open handles. *)
Lemma double_subscribe_counterexample :
  ∃ h1 c1 h2 c2,
    Feed.subscribe Sample.feed (Faye.Handler 1) Sample.client = (Return h1, c1)
    ∧ Feed.subscribe Sample.feed (Faye.Handler 2) c1 = (Return h2, c2)
    ∧ h1 ≠ h2
    ∧ Faye.is_active h1 (Client.fayeClient c2)
    ∧ Client.fayeSubscription
        <$> Client.subscriptions c2 !! Spec.channel_key Sample.feed = Some h2
    ∧ length (Spec.open_on (Spec.channel_key Sample.feed) c2) = 2.
Proof.
  do 4 eexists. split; [reflexivity|]. split; [reflexivity|].
  split; [discriminate|]. split; [reflexivity|]. split; reflexivity.
Qed.

(** * Further properties of the feed *)

(** ** Identity *)

(** A feed the constructor returns is determined by its arguments. *)
Lemma constructor_Return (feedSlugRule : string → option string)
    (userIdRule : Feed.userIdArg → option string)
    (client : Client.StreamClient) (slug userId : string)
    (token : option string) (f : Feed.StreamFeed) :
  Feed.constructor feedSlugRule userIdRule client slug userId token = Return f →
  ∃ tok,
    token = Some tok ∧ tok ≠ EmptyString
    ∧ slug ≠ EmptyString ∧ userId ≠ EmptyString
    ∧ Spec.contains ":" slug = false
    ∧ f = {| Feed.token := tok;
             Feed.id := slug +:+ ":" +:+ userId;
             Feed.slug := slug;
             Feed.userId := userId;
             Feed.feedUrl := slug +:+ "/" +:+ userId;
             Feed.feedTogether := slug +:+ userId;
             Feed.signature := (slug +:+ userId) +:+ " " +:+ tok;
             Feed.notificationChannel :=
               "site-" +:+ Js.show_opt (Client.appId client) +:+ "-feed-"
               +:+ (slug +:+ userId) |}.
Proof.
  unfold Feed.constructor, Feed.validateFeedSlug, Feed.validateUserId.
  rewrite indexOf_contains, negb_involutive.
  destruct (Js.truthy_string slug) eqn:Hslug; [|discriminate].
  destruct (Js.truthy_string userId) eqn:Huser; [|discriminate].
  simpl. destruct (Spec.contains ":" slug) eqn:Hcolon; [discriminate|].
  destruct (feedSlugRule slug); [discriminate|].
  destruct (userIdRule (Feed.IdString userId)); [discriminate|]. simpl.
  destruct token as [tok|]; [|discriminate].
  destruct (Js.truthy_string tok) eqn:Htok; [|discriminate]. simpl.
  change (slug +:+ ":" +:+ userId) with (slug +:+ String ":" userId).
  rewrite !replace_separator by done. intros [= <-].
  exists tok. by rewrite <- !truthy_string_true.
Qed.

(** A string splits in one way only at a separator its head lacks. *)
Lemma separator_split_unique (c : ascii) (s1 s2 u1 u2 : string) :
  Spec.contains c s1 = false →
  Spec.contains c s2 = false →
  s1 +:+ String c u1 = s2 +:+ String c u2 →
  s1 = s2 ∧ u1 = u2.
Proof.
  revert s2. induction s1 as [|a s1 IH]; intros [|b s2]; simpl.
  - by intros _ _ [= ->].
  - intros _ [Hb _]%orb_false_iff [= -> _]. by rewrite Ascii.eqb_refl in Hb.
  - intros [Ha _]%orb_false_iff _ [= -> _]. by rewrite Ascii.eqb_refl in Ha.
  - intros [_ H1]%orb_false_iff [_ H2]%orb_false_iff [= -> Heq].
    destruct (IH s2 H1 H2 Heq) as [-> ->]. done.
Qed.

(** X1. The id of a feed determines the feed's slug and user id: two
    feeds the constructor returns with the same id were built from the
    same slug and the same user id, whatever the clients and tokens. *)
Theorem feed_id_determines_feed (feedSlugRule : string → option string)
    (userIdRule : Feed.userIdArg → option string)
    (c1 c2 : Client.StreamClient) (s1 u1 s2 u2 : string)
    (t1 t2 : option string) (f1 f2 : Feed.StreamFeed) :
  Feed.constructor feedSlugRule userIdRule c1 s1 u1 t1 = Return f1 →
  Feed.constructor feedSlugRule userIdRule c2 s2 u2 t2 = Return f2 →
  Feed.id f1 = Feed.id f2 →
  s1 = s2 ∧ u1 = u2
  ∧ Feed.feedUrl f1 = Feed.feedUrl f2
  ∧ Feed.feedTogether f1 = Feed.feedTogether f2.
Proof.
  intros (tok1 & _ & _ & _ & _ & Hc1 & ->)%constructor_Return
         (tok2 & _ & _ & _ & _ & Hc2 & ->)%constructor_Return. simpl.
  intros Hid. destruct (separator_split_unique ":" s1 s2 u1 u2) as [-> ->];
    done.
Qed.

(** Feeds with one channel name share one registry slot. *)
Lemma shared_channel_unsubscribe (f g : Feed.StreamFeed) (cb : Faye.Callback)
    (c : Client.StreamClient) :
  Feed.notificationChannel f = Feed.notificationChannel g →
  Feed.truthy_opt (Client.appId c) = true →
  ∃ h c1 c2,
    Feed.subscribe f cb c = (Return h, c1)
    ∧ Faye.is_active h (Client.fayeClient c1)
    ∧ Feed.unsubscribe g c1 = (Return tt, c2)
    ∧ Client.subscriptions c2 !! Spec.channel_key f = None
    ∧ ¬ Faye.is_active h (Client.fayeClient c2).
Proof.
  intros Hchan Happ. do 3 eexists. split; [by apply subscribe_ok|].
  unfold Feed.unsubscribe. rewrite <- Hchan. fold (Spec.channel_key f).
  unfold Faye.is_active. simpl. rewrite !lookup_insert_eq.
  split_and!; try done; simpl; by rewrite lookup_delete_eq.
Qed.

(** X2. The channel is named after the joined form, which does not keep
    the boundary between slug and user id: two feeds of one client whose
    slug and user id concatenate to the same string share their channel,
    so [unsubscribe] on one removes the registry entry and cancels the
    handle that [subscribe] on the other has just opened. *)
Theorem joined_form_shares_channel (feedSlugRule : string → option string)
    (userIdRule : Feed.userIdArg → option string)
    (c : Client.StreamClient) (s1 u1 s2 u2 : string)
    (t1 t2 : option string) (f g : Feed.StreamFeed) (cb : Faye.Callback) :
  Feed.constructor feedSlugRule userIdRule c s1 u1 t1 = Return f →
  Feed.constructor feedSlugRule userIdRule c s2 u2 t2 = Return g →
  s1 +:+ u1 = s2 +:+ u2 →
  Feed.truthy_opt (Client.appId c) = true →
  Feed.notificationChannel f = Feed.notificationChannel g
  ∧ ∃ h c1 c2,
      Feed.subscribe f cb c = (Return h, c1)
      ∧ Faye.is_active h (Client.fayeClient c1)
      ∧ Feed.unsubscribe g c1 = (Return tt, c2)
      ∧ Client.subscriptions c2 !! Spec.channel_key f = None
      ∧ ¬ Faye.is_active h (Client.fayeClient c2).
Proof.
  intros (tok1 & _ & _ & _ & _ & _ & ->)%constructor_Return
         (tok2 & _ & _ & _ & _ & _ & ->)%constructor_Return Hjoin Happ.
  assert (Hchan : ∀ tok tok' id id' url url',
    Feed.notificationChannel
      {| Feed.token := tok; Feed.id := id; Feed.slug := s1;
         Feed.userId := u1; Feed.feedUrl := url;
         Feed.feedTogether := s1 +:+ u1;
         Feed.signature := (s1 +:+ u1) +:+ " " +:+ tok;
         Feed.notificationChannel :=
           "site-" +:+ Js.show_opt (Client.appId c) +:+ "-feed-"
           +:+ (s1 +:+ u1) |}
    = Feed.notificationChannel
      {| Feed.token := tok'; Feed.id := id'; Feed.slug := s2;
         Feed.userId := u2; Feed.feedUrl := url';
         Feed.feedTogether := s2 +:+ u2;
         Feed.signature := (s2 +:+ u2) +:+ " " +:+ tok';
         Feed.notificationChannel :=
           "site-" +:+ Js.show_opt (Client.appId c) +:+ "-feed-"
           +:+ (s2 +:+ u2) |}).
  { intros. cbn [Feed.notificationChannel]. by rewrite Hjoin. }
  split; [apply Hchan|]. by apply shared_channel_unsubscribe.
Qed.

(** ** The registry and the transport *)

(** X3. On a consistent client with an app id, [subscribe] opens a
    handle that was not open before, on the feed's channel and with the
    caller's callback, registers it with the feed's token under the
    feed's channel, and leaves every handle that was open and every
    other channel's registry entry as they were. *)
Theorem subscribe_opens_fresh_handle (f : Feed.StreamFeed)
    (cb : Faye.Callback) (c : Client.StreamClient) :
  Feed.truthy_opt (Client.appId c) = true →
  Spec.consistent c →
  ∃ h c',
    Feed.subscribe f cb c = (Return h, c')
    ∧ Faye.active (Client.fayeClient c) !! Faye.handle h = None
    ∧ ¬ Spec.registered (Faye.handle h) c
    ∧ Faye.is_active h (Client.fayeClient c')
    ∧ Faye.channel h = Spec.channel_key f
    ∧ Faye.callback h = cb
    ∧ Client.subscriptions c' !! Spec.channel_key f
      = Some {| Client.token := Feed.token f;
                Client.userId := Feed.notificationChannel f;
                Client.fayeSubscription := h |}
    ∧ (∀ s, Faye.is_active s (Client.fayeClient c) →
            Faye.is_active s (Client.fayeClient c'))
    ∧ (∀ k, k ≠ Spec.channel_key f →
            Client.subscriptions c' !! k = Client.subscriptions c !! k)
    ∧ Client.appId c' = Client.appId c.
Proof.
  intros Happ [Hopen Hdist Hissued]. do 2 eexists.
  split; [by apply subscribe_ok|]. unfold Faye.is_active. simpl.
  set (n := Faye.fresh (Client.fayeClient c)).
  assert (Hn : Faye.active (Client.fayeClient c) !! n = None).
  { destruct (Faye.active (Client.fayeClient c) !! n) as [s|] eqn:Hs;
      [|done]. apply Hissued in Hs as [Hlt _]. unfold n in Hlt. lia. }
  split_and!; try done.
  - intros (k & e & He & Hh). destruct (Hopen k e He) as [Hact _].
    unfold Faye.is_active in Hact. rewrite Hh in Hact. congruence.
  - by rewrite lookup_insert_eq.
  - by rewrite lookup_insert_eq.
  - intros s Hs. rewrite lookup_insert_ne; [done|]. intros Heq.
    rewrite <- Heq in Hs. congruence.
  - intros k Hk. by rewrite lookup_insert_ne.
Qed.

(** X4. On a consistent client with an app id and no entry for the
    feed's channel, [subscribe] followed by [unsubscribe] restores the
    registry and the set of open handles; only the transport's next
    handle has moved on. *)
Theorem subscribe_unsubscribe_restores (f : Feed.StreamFeed)
    (cb : Faye.Callback) (c : Client.StreamClient) :
  Feed.truthy_opt (Client.appId c) = true →
  Spec.consistent c →
  Client.subscriptions c !! Spec.channel_key f = None →
  let c2 := (Feed.unsubscribe f (Feed.subscribe f cb c).2).2 in
  Client.subscriptions c2 = Client.subscriptions c
  ∧ Faye.active (Client.fayeClient c2) = Faye.active (Client.fayeClient c)
  ∧ Client.appId c2 = Client.appId c
  ∧ Faye.fresh (Client.fayeClient c2) = S (Faye.fresh (Client.fayeClient c)).
Proof.
  intros Happ [_ _ Hissued] Hnone. cbv zeta.
  rewrite subscribe_ok by done. unfold Feed.unsubscribe.
  fold (Spec.channel_key f). simpl. rewrite lookup_insert_eq. simpl.
  split_and!; try done.
  - by apply delete_insert_id.
  - apply delete_insert_id.
    destruct (Faye.active (Client.fayeClient c)
                !! Faye.fresh (Client.fayeClient c)) as [s|] eqn:Hs; [|done].
    apply Hissued in Hs as [Hlt _]. lia.
Qed.

(** X5. [unsubscribe] is idempotent: a second call in a row returns
    normally and changes nothing. *)
Theorem unsubscribe_idempotent (f : Feed.StreamFeed)
    (c : Client.StreamClient) :
  Feed.unsubscribe f (Feed.unsubscribe f c).2
  = (Return tt, (Feed.unsubscribe f c).2).
Proof.
  unfold Feed.unsubscribe at 2 3. fold (Spec.channel_key f).
  destruct (Client.subscriptions c !! Spec.channel_key f) as [e|] eqn:He;
    simpl; unfold Feed.unsubscribe; fold (Spec.channel_key f); simpl.
  - by rewrite lookup_delete_eq.
  - by rewrite He.
Qed.

(** A handle that is open and is not the one registered under the feed's
    channel survives a call on the feed, and still is not the one
    registered there. *)
Lemma call_keeps_open (f : Feed.StreamFeed) (call : Spec.call)
    (c : Client.StreamClient) (s : Faye.Subscription) :
  Spec.consistent c →
  Faye.is_active s (Client.fayeClient c) →
  (∀ e, Client.subscriptions c !! Spec.channel_key f = Some e →
        Faye.handle (Client.fayeSubscription e) ≠ Faye.handle s) →
  let c' := Spec.after f [call] c in
  Faye.is_active s (Client.fayeClient c')
  ∧ (∀ e, Client.subscriptions c' !! Spec.channel_key f = Some e →
          Faye.handle (Client.fayeSubscription e) ≠ Faye.handle s).
Proof.
  intros [Hopen Hdist Hissued] Hs Hreg. cbv zeta.
  assert (Hlt : Faye.handle s < Faye.fresh (Client.fayeClient c))
    by by apply Hissued in Hs as [? _].
  destruct call as [cb|]; simpl.
  - destruct (Feed.truthy_opt (Client.appId c)) eqn:Happ.
    + rewrite subscribe_ok by done. unfold Faye.is_active. simpl. split.
      * rewrite lookup_insert_ne; [done|lia].
      * rewrite lookup_insert_eq. intros e [= <-]. simpl. lia.
    + unfold Feed.subscribe. rewrite Happ. by simpl.
  - unfold Feed.unsubscribe. fold (Spec.channel_key f).
    destruct (Client.subscriptions c !! Spec.channel_key f) as [e|] eqn:He;
      simpl; [|by rewrite He].
    unfold Faye.is_active. simpl. split.
    + rewrite lookup_delete_ne; [done|]. by apply Hreg.
    + by rewrite lookup_delete_eq.
Qed.

Lemma after_cons (f : Feed.StreamFeed) (call : Spec.call)
    (calls : list Spec.call) (c : Client.StreamClient) :
  Spec.after f (call :: calls) c = Spec.after f calls (Spec.after f [call] c).
Proof. by destruct call. Qed.

Lemma after_keeps_open (f : Feed.StreamFeed) (calls : list Spec.call)
    (c : Client.StreamClient) (s : Faye.Subscription) :
  Spec.consistent c →
  Faye.is_active s (Client.fayeClient c) →
  (∀ e, Client.subscriptions c !! Spec.channel_key f = Some e →
        Faye.handle (Client.fayeSubscription e) ≠ Faye.handle s) →
  Faye.is_active s (Client.fayeClient (Spec.after f calls c)).
Proof.
  revert c. induction calls as [|call calls IH]; intros c Hc Hs Hreg;
    [done|].
  rewrite after_cons.
  destruct (call_keeps_open f call c s Hc Hs Hreg) as [Hs' Hreg'].
  apply IH; [by apply after_consistent|done|done].
Qed.

(** X6. No call on a feed ever cancels a handle other than the one
    registered under the feed's channel: a handle that is open but not
    registered there, such as the first handle of a double [subscribe],
    stays open through every later sequence of [subscribe] and
    [unsubscribe] calls on the feed. *)
Theorem unregistered_handle_stays_open (f : Feed.StreamFeed)
    (calls : list Spec.call) (c : Client.StreamClient)
    (s : Faye.Subscription) :
  Spec.consistent c →
  Faye.is_active s (Client.fayeClient c) →
  (∀ e, Client.subscriptions c !! Spec.channel_key f = Some e →
        Faye.handle (Client.fayeSubscription e) ≠ Faye.handle s) →
  Faye.is_active s (Client.fayeClient (Spec.after f calls c)).
Proof. apply after_keeps_open. Qed.

Lemma after_other_channel (f : Feed.StreamFeed) (calls : list Spec.call)
    (c : Client.StreamClient) (k : string) :
  k ≠ Spec.channel_key f →
  Client.subscriptions (Spec.after f calls c) !! k
  = Client.subscriptions c !! k.
Proof.
  intros Hk. revert c. induction calls as [|[cb|] calls IH]; intros c;
    simpl; [done| |]; rewrite IH.
  - unfold Feed.subscribe. destruct (negb _); [done|]. simpl.
    by rewrite lookup_insert_ne.
  - unfold Feed.unsubscribe. fold (Spec.channel_key f).
    destruct (Client.subscriptions c !! Spec.channel_key f); [|done].
    simpl. by rewrite lookup_delete_ne.
Qed.

(** X7. Calls on one feed do not disturb another channel: on a
    consistent client, an entry registered under a different channel is
    still registered, and its handle still open, after any sequence of
    [subscribe] and [unsubscribe] calls on the feed. *)
Theorem other_channel_undisturbed (f : Feed.StreamFeed)
    (calls : list Spec.call) (c : Client.StreamClient) (k : string)
    (e : Client.StreamSubscription) :
  Spec.consistent c →
  k ≠ Spec.channel_key f →
  Client.subscriptions c !! k = Some e →
  Client.subscriptions (Spec.after f calls c) !! k = Some e
  ∧ Faye.is_active (Client.fayeSubscription e)
      (Client.fayeClient (Spec.after f calls c)).
Proof.
  intros Hc Hk He. split; [by rewrite after_other_channel|].
  apply after_keeps_open; [done|by apply Hc in He as [? _]|].
  intros e' He' Heq. apply Hk. symmetry. by eapply (Spec.handles_distinct c).
Qed.

(** X8. Without a configured app id no call on a feed opens anything:
    after any sequence of [subscribe] and [unsubscribe] calls the
    transport has issued no handle, and the registry and the open
    handles are parts of what they were. *)
Theorem no_app_id_opens_nothing (f : Feed.StreamFeed)
    (calls : list Spec.call) (c : Client.StreamClient) :
  Feed.truthy_opt (Client.appId c) = false →
  let c' := Spec.after f calls c in
  Client.appId c' = Client.appId c
  ∧ Faye.fresh (Client.fayeClient c') = Faye.fresh (Client.fayeClient c)
  ∧ Client.subscriptions c' ⊆ Client.subscriptions c
  ∧ Faye.active (Client.fayeClient c') ⊆ Faye.active (Client.fayeClient c).
Proof.
  cbv zeta. revert c. induction calls as [|[cb|] calls IH]; intros c Happ;
    simpl.
  - done.
  - unfold Feed.subscribe. rewrite Happ. simpl. by apply IH.
  - unfold Feed.unsubscribe. fold (Spec.channel_key f).
    destruct (Client.subscriptions c !! Spec.channel_key f) as [e|];
      [|by apply IH].
    match goal with |- context [Spec.after f calls ?c1] =>
      destruct (IH c1 Happ) as (Ha & Hf & Hs & Hact) end.
    simpl in *. split_and!; try done.
    + etrans; [exact Hs|apply delete_subseteq].
    + etrans; [exact Hact|apply delete_subseteq].
Qed.

(** ** The remaining request builders *)

Lemma append_assoc (s1 s2 s3 : string) :
  (s1 +:+ s2) +:+ s3 = s1 +:+ s2 +:+ s3.
Proof.
  induction s1 as [|a s1 IH]; [done|].
  change (String a ((s1 +:+ s2) +:+ s3) = String a (s1 +:+ s2 +:+ s3)).
  by rewrite IH.
Qed.

Section builder_properties.

Variable feedSlugRule : string → option string.
Variable userIdRule : Feed.userIdArg → option string.
Variable replaceReactionOptions : Js.object → Js.object.
Variable shouldUseEnrichEndpoint : Js.object → bool * Js.object.
Variable replaceStreamObjects : Js.object → Js.object.

(** X9. [unfollow] throws exactly when a validator rejects the slug or
    the user id.  Otherwise it deletes
    [feed/<urlPath>/following/<slug>:<userId>/], and the query holds
    [keep_history = "1"] exactly when [options.keepHistory] is the
    boolean [true]; any other value, truthy or not, leaves the query
    empty. *)
Theorem unfollow_request (f : Feed.StreamFeed) (targetSlug targetUserId : string)
    (options : Js.object) :
  let sent := Feed.unfollow feedSlugRule userIdRule f targetSlug targetUserId
                options in
  (errors.throws sent ↔
     is_Some (feedSlugRule targetSlug)
     ∨ is_Some (userIdRule (Feed.IdString targetUserId)))
  ∧ (∀ r, sent = Return r →
       Request.method r = Request.DELETE
       ∧ Request.url r
         = "feed/" +:+ Feed.feedUrl f +:+ "/following/" +:+ targetSlug
           +:+ ":" +:+ targetUserId +:+ "/"
       ∧ Request.body r = None
       ∧ Request.signature r = Feed.signature f
       ∧ (options !! "keepHistory" = Some (Js.VBool true) →
            Request.qs r = Some {[ "keep_history" := Js.VStr "1" ]})
       ∧ (options !! "keepHistory" ≠ Some (Js.VBool true) →
            Request.qs r = Some ∅)).
Proof.
  cbv zeta. unfold Feed.unfollow, Feed.validateFeedSlug, Feed.validateUserId.
  destruct (feedSlugRule targetSlug); simpl;
    [split; [split; eauto with feed|discriminate]|].
  destruct (userIdRule (Feed.IdString targetUserId)); simpl;
    [split; [split; eauto with feed|discriminate]|].
  split.
  - split; [intros []%throws_Return|]. intros [[]|[]]; discriminate.
  - intros r [= <-]. simpl. split_and!; try done.
    + by rewrite !append_assoc.
    + by intros ->.
    + destruct (options !! "keepHistory") as [[| |[]| | |]|]; simpl; done.
Qed.

(** X10. [unfollow] addresses the edge [follow] creates: when [follow]
    on a slug and a plain id (or a [StreamUser] with that id) posts a
    target, [unfollow] on the same slug and id returns as well and
    deletes [feed/<urlPath>/following/<that target>/]. *)
Theorem unfollow_addresses_follow_target (f : Feed.StreamFeed)
    (targetSlug uid : string) (t : Feed.followTarget)
    (options options' : Js.object) (r : Request.t) (b : Js.object)
    (target : string) :
  t = Feed.TargetId uid ∨ t = Feed.TargetUser uid →
  Feed.follow feedSlugRule userIdRule f targetSlug t options = Return r →
  Request.body r = Some b →
  b !! "target" = Some (Js.VStr target) →
  ∃ r',
    Feed.unfollow feedSlugRule userIdRule f targetSlug uid options'
      = Return r'
    ∧ Request.url r'
      = "feed/" +:+ Feed.feedUrl f +:+ "/following/" +:+ target +:+ "/"
    ∧ Request.signature r' = Request.signature r.
Proof.
  intros Ht. unfold Feed.follow, Feed.unfollow, Feed.validateFeedSlug,
    Feed.validateUserId.
  destruct (feedSlugRule targetSlug); simpl; [discriminate|].
  assert (Harg : match t with
                 | Feed.TargetUser u => Feed.IdString u
                 | Feed.TargetId s => Feed.IdString s
                 | Feed.TargetObject o => Feed.IdObject o
                 end = Feed.IdString uid) by by destruct Ht as [-> | ->].
  rewrite Harg.
  destruct (userIdRule (Feed.IdString uid)); simpl; [discriminate|].
  intros [= <-]. simpl. intros [= <-] Htarget.
  assert (target = targetSlug +:+ ":" +:+ uid) as ->.
  { destruct (options !! "limit") as [[]|]; simpl in Htarget;
      simplify_map_eq; done. }
  eexists. split; [done|]. simpl. by rewrite !append_assoc.
Qed.

Lemma follow_options_lookup (o : Feed.GetFollowOptions.t) (k : string) :
  Feed.GetFollowOptions.object o !! k
  = if bool_decide (k = "filter")
    then Js.VArr <$> Feed.GetFollowOptions.filter o
    else if bool_decide (k = "limit")
    then Js.VNum <$> Feed.GetFollowOptions.limit o
    else if bool_decide (k = "offset")
    then Js.VNum <$> Feed.GetFollowOptions.offset o
    else None.
Proof.
  unfold Feed.GetFollowOptions.object.
  destruct o as [[l|] [n|] [m|]]; simpl;
    repeat case_bool_decide; simplify_map_eq; done.
Qed.

(** X11. [following] and [followers] send the same query and differ in
    the path only.  In the query a [filter] array is replaced by its
    comma-joined string (the empty string for an empty array), [limit]
    and [offset] are sent as given, a key that was not given is absent,
    and no value sent is an array. *)
Theorem following_followers_query (f : Feed.StreamFeed)
    (o : Feed.GetFollowOptions.t) :
  ∃ q,
    Feed.following f o
    = {| Request.method := Request.GET;
         Request.url := "feed/" +:+ Feed.feedUrl f +:+ "/following/";
         Request.qs := Some q;
         Request.body := None;
         Request.signature := Feed.signature f |}
    ∧ Feed.followers f o
      = {| Request.method := Request.GET;
           Request.url := "feed/" +:+ Feed.feedUrl f +:+ "/followers/";
           Request.qs := Some q;
           Request.body := None;
           Request.signature := Feed.signature f |}
    ∧ q !! "filter"
      = (λ l, Js.VStr (Js.join "," l)) <$> Feed.GetFollowOptions.filter o
    ∧ q !! "limit" = Js.VNum <$> Feed.GetFollowOptions.limit o
    ∧ q !! "offset" = Js.VNum <$> Feed.GetFollowOptions.offset o
    ∧ (∀ k, k ≠ "filter" → k ≠ "limit" → k ≠ "offset" → q !! k = None)
    ∧ (∀ k v, q !! k = Some v → Spec.is_array v = false).
Proof.
  eexists. split; [done|]. split; [done|].
  rewrite spread_shallow_union.
  assert (Hq : ∀ k,
    Spec.shallow_union (Feed.GetFollowOptions.object o)
      match Feed.GetFollowOptions.filter o with
      | Some l => <["filter" := Js.VStr (Js.join "," l)]> (∅ : Js.object)
      | None => ∅
      end !! k
    = if bool_decide (k = "filter")
      then (λ l, Js.VStr (Js.join "," l)) <$> Feed.GetFollowOptions.filter o
      else if bool_decide (k = "limit")
      then Js.VNum <$> Feed.GetFollowOptions.limit o
      else if bool_decide (k = "offset")
      then Js.VNum <$> Feed.GetFollowOptions.offset o
      else None).
  { intros k. rewrite shallow_union_lookup, follow_options_lookup.
    destruct (Feed.GetFollowOptions.filter o) as [l|]; simpl;
      repeat case_bool_decide; simplify_map_eq; done. }
  split_and!.
  - by rewrite Hq.
  - by rewrite Hq.
  - by rewrite Hq.
  - intros k ???. rewrite Hq. by rewrite !bool_decide_eq_false_2.
  - intros k v. rewrite Hq.
    repeat case_bool_decide; try done;
      [destruct (Feed.GetFollowOptions.filter o)
      |destruct (Feed.GetFollowOptions.limit o)
      |destruct (Feed.GetFollowOptions.offset o)];
      simpl; try done; by intros [= <-].
Qed.

(** X12. [addActivity] posts the activity as [replaceStreamObjects]
    returns it, except for [actor]: a truthy [actor] is never replaced;
    a missing or falsy one is set to the current user's reference when
    the client has a current user, and left as it is otherwise.  Every
    other key is posted unchanged. *)
Theorem addActivity_actor (f : Feed.StreamFeed) (currentUser : option string)
    (activity : Js.object) :
  let a := replaceStreamObjects activity in
  ∃ b,
    Feed.addActivity replaceStreamObjects f currentUser activity
    = {| Request.method := Request.POST;
         Request.url := "feed/" +:+ Feed.feedUrl f +:+ "/";
         Request.qs := None;
         Request.body := Some b;
         Request.signature := Feed.signature f |}
    ∧ (∀ k, k ≠ "actor" → b !! k = a !! k)
    ∧ (∀ v, a !! "actor" = Some v → Js.truthy v = true →
            b !! "actor" = Some v)
    ∧ (currentUser = None → b = a)
    ∧ (∀ ref, currentUser = Some ref →
         (a !! "actor" = None
          ∨ ∃ v, a !! "actor" = Some v ∧ Js.truthy v = false) →
         b !! "actor" = Some (Js.VStr ref)).
Proof.
  cbv zeta. eexists. split; [done|].
  set (a := replaceStreamObjects activity).
  destruct (a !! "actor") as [v|] eqn:Hactor;
    [destruct (Js.truthy v) eqn:Hv|]; destruct currentUser as [ref|];
    simpl; split_and!; try done.
  all: try (by intros k Hk; rewrite lookup_insert_ne).
  all: try (by intros w [= <-] Hw; congruence).
  all: try (by intros ref' _ [|(w & [= <-] & Hw)]; congruence).
  all: try (by intros ref' [= <-] _; rewrite lookup_insert_eq).
Qed.

Lemma last_char_append (s1 s2 : string) :
  s2 ≠ EmptyString → Spec.last_char (s1 +:+ s2) = Spec.last_char s2.
Proof.
  intros Hs2. induction s1 as [|a s1 IH]; [done|].
  change (Spec.last_char (String a (s1 +:+ s2)) = Spec.last_char s2).
  rewrite <- IH. simpl. destruct (s1 +:+ s2) eqn:Happ; [|done].
  destruct s1; [done|discriminate].
Qed.

Lemma append_nonempty (s1 s2 : string) :
  s2 ≠ EmptyString → s1 +:+ s2 ≠ EmptyString.
Proof. intros Hs2. by destruct s1. Qed.

(** The url of a request ends in a slash. *)
Ltac slash_terminated :=
  simpl Request.url;
  repeat (rewrite last_char_append by (repeat apply append_nonempty; done));
  done.

(** X13. Every request a method builds is signed with the feed's
    signature, and its url ends in a slash, whatever the arguments are:
    ids, slugs and options never reach the end of the path. *)
Theorem requests_signed_and_slash_terminated (f : Feed.StreamFeed) :
  let ok (r : Request.t) :=
    Request.signature r = Feed.signature f
    ∧ Spec.last_char (Request.url r) = Some "/"%char in
  (∀ a, ok (Feed.removeActivity f a))
  ∧ (∀ cu activity, ok (Feed.addActivity replaceStreamObjects f cu activity))
  ∧ (∀ o, ok (Feed.following f o))
  ∧ (∀ o, ok (Feed.followers f o))
  ∧ (∀ o, ok (Feed.get replaceReactionOptions shouldUseEnrichEndpoint f o))
  ∧ (∀ a o, ok (Feed.getActivityDetail replaceReactionOptions
                  shouldUseEnrichEndpoint f a o))
  ∧ (∀ slug t o r,
       Feed.follow feedSlugRule userIdRule f slug t o = Return r → ok r)
  ∧ (∀ slug uid o r,
       Feed.unfollow feedSlugRule userIdRule f slug uid o = Return r → ok r)
  ∧ (∀ fid time new added removed r,
       Feed.updateActivityToTargets f fid time new added removed = Return r →
       ok r).
Proof.
  cbv zeta. split_and!.
  - intros a. split; [done|]. slash_terminated.
  - intros cu activity. split; [done|]. slash_terminated.
  - intros o. split; [done|]. slash_terminated.
  - intros o. split; [done|]. slash_terminated.
  - intros o. unfold Feed.get.
    destruct (shouldUseEnrichEndpoint _) as [[] ?];
      (split; [done|slash_terminated]).
  - intros a o. unfold Feed.getActivityDetail, Feed.get.
    destruct (shouldUseEnrichEndpoint _) as [[] ?];
      (split; [done|slash_terminated]).
  - intros slug t o r. unfold Feed.follow, Feed.validateFeedSlug,
      Feed.validateUserId.
    destruct (feedSlugRule slug); simpl; [discriminate|].
    destruct (userIdRule _); simpl; [discriminate|].
    intros [= <-]. split; [done|]. slash_terminated.
  - intros slug uid o r. unfold Feed.unfollow, Feed.validateFeedSlug,
      Feed.validateUserId.
    destruct (feedSlugRule slug); simpl; [discriminate|].
    destruct (userIdRule _); simpl; [discriminate|].
    intros [= <-]. split; [done|]. slash_terminated.
  - intros fid time new added removed r. unfold Feed.updateActivityToTargets.
    destruct (Js.truthy_string fid); simpl; [|discriminate].
    destruct (Js.truthy_string time); simpl; [|discriminate].
    destruct new, added, removed; simpl; try discriminate;
      try (destruct (Feed.forEach _ _); simpl; try discriminate);
      intros [= <-]; (split; [done|slash_terminated]).
Qed.

Lemma detail_options_lookup (activityId : string) (options : option Js.object)
    (k : string) :
  k ≠ "id_lte" → k ≠ "id_gte" → k ≠ "limit" →
  Spec.detail_options activityId options !! k = default ∅ options !! k.
Proof.
  intros. unfold Spec.detail_options. rewrite shallow_union_lookup.
  destruct (default ∅ options !! k); [done|]. by simplify_map_eq.
Qed.

Lemma marking_overrides_detail (activityId : string)
    (options : option Js.object) :
  Spec.marking_overrides (Spec.detail_options activityId options)
  = Spec.marking_overrides (default ∅ options).
Proof.
  unfold Spec.marking_overrides, Spec.serialized_mark.
  by rewrite !detail_options_lookup.
Qed.

(** X14. [getActivityDetail] does not force its cursor and limit: the
    query is the one [get] sends for the caller's options laid over
    [id_lte = id_gte = activityId] and [limit = 1], so marking arrays in
    the caller's options are serialized as in [get], and, where the
    client's reaction rewrite and endpoint predicate leave the merged
    options alone, a caller's own [id_lte], [id_gte] or [limit] is sent
    in place of the default. *)
Theorem getActivityDetail_query (f : Feed.StreamFeed) (activityId : string)
    (options : option Js.object) :
  let caller := default ∅ options in
  let merged := Spec.detail_options activityId options in
  ∃ q,
    Request.qs
      (Feed.getActivityDetail replaceReactionOptions shouldUseEnrichEndpoint
         f activityId options) = Some q
    ∧ q = Spec.shallow_union
            (Spec.client_rewrite replaceReactionOptions
               shouldUseEnrichEndpoint merged)
            (Spec.marking_overrides caller)
    ∧ (∀ k ids,
         k = "mark_read" ∨ k = "mark_seen" →
         caller !! k = Some (Js.VArr ids) →
         q !! k = Some (Js.VStr (Js.join "," ids)))
    ∧ (Spec.client_rewrite replaceReactionOptions shouldUseEnrichEndpoint
         merged = merged →
         q !! "id_lte" = Some (default (Js.VStr activityId) (caller !! "id_lte"))
         ∧ q !! "id_gte"
           = Some (default (Js.VStr activityId) (caller !! "id_gte"))
         ∧ q !! "limit" = Some (default (Js.VNum 1) (caller !! "limit"))).
Proof.
  cbv zeta. eexists. split.
  { unfold Feed.getActivityDetail.
    change (Js.spread ?a ?b) with (Spec.detail_options activityId options).
    rewrite get_qs, marking_overrides_detail. done. }
  split; [done|]. split.
  - intros k ids Hk Hids.
    rewrite shallow_union_lookup, marking_overrides_lookup.
    rewrite bool_decide_eq_true_2 by done.
    unfold Spec.serialized_mark. by rewrite Hids.
  - intros ->.
    rewrite !shallow_union_lookup, !marking_overrides_lookup.
    rewrite !bool_decide_eq_false_2 by (by intros [|]).
    unfold Spec.detail_options. rewrite !shallow_union_lookup.
    split_and!.
    + destruct (default ∅ options !! "id_lte"); by simplify_map_eq.
    + destruct (default ∅ options !! "id_gte"); by simplify_map_eq.
    + destruct (default ∅ options !! "limit"); by simplify_map_eq.
Qed.

End builder_properties.

(** ** More on updateActivityToTargets *)

Lemma overlap_sym (l1 l2 : list string) :
  Spec.overlap l1 l2 → Spec.overlap l2 l1.
Proof. intros (x & ? & ?). by exists x. Qed.

(** X15. Which of two overlapping lists is the added one does not
    matter: swapping [addedTargets] and [removedTargets] never changes
    whether [updateActivityToTargets] throws. *)
Theorem updateActivityToTargets_swap (f : Feed.StreamFeed)
    (foreignId time : string)
    (newTargets addedTargets removedTargets : option (list string)) :
  errors.throws
    (Feed.updateActivityToTargets f foreignId time
       newTargets addedTargets removedTargets)
  ↔ errors.throws
      (Feed.updateActivityToTargets f foreignId time
         newTargets removedTargets addedTargets).
Proof.
  unfold Feed.updateActivityToTargets.
  destruct (Js.truthy_string foreignId); simpl; [|done].
  destruct (Js.truthy_string time); simpl; [|done].
  destruct newTargets as [new|], addedTargets as [added|],
    removedTargets as [removed|]; simpl; try done;
    try (by split; intros _; eauto with feed);
    try (by split; intros []%throws_Return).
  set (e := Error
    "Can't have the same feed ID in addedTargets and removedTargets.").
  destruct (forEach_scan added removed e) as [[-> H1]|[-> H1]],
           (forEach_scan removed added e) as [[-> H2]|[-> H2]];
    simpl; try done; try (by split; intros []%throws_Return).
  - by apply overlap_sym in H1.
  - by apply overlap_sym in H2.
Qed.

(** X16. An empty target list counts as given and overlaps nothing:
    with a non-empty [foreignId] and [time], an empty [newTargets] alone
    is accepted and posted as [[]], and [addedTargets] with
    [removedTargets] are accepted as soon as one of them is empty,
    whatever the other holds. *)
Theorem updateActivityToTargets_empty_lists (f : Feed.StreamFeed)
    (foreignId time : string) (added removed : list string) :
  foreignId ≠ EmptyString →
  time ≠ EmptyString →
  (∃ r b,
     Feed.updateActivityToTargets f foreignId time (Some []) None None
       = Return r
     ∧ Request.body r = Some b
     ∧ b !! "new_targets" = Some (Js.VArr []))
  ∧ (added = [] ∨ removed = [] →
     ∃ r b,
       Feed.updateActivityToTargets f foreignId time None
         (Some added) (Some removed) = Return r
       ∧ Request.body r = Some b
       ∧ b !! "added_targets" = Some (Js.VArr added)
       ∧ b !! "removed_targets" = Some (Js.VArr removed)).
Proof.
  intros Hf%truthy_string_true Ht%truthy_string_true.
  unfold Feed.updateActivityToTargets. rewrite Hf, Ht. simpl. split.
  - do 2 eexists. split; [done|]. split; [done|]. by simplify_map_eq.
  - intros Hempty.
    destruct (forEach_scan added removed (Error
      "Can't have the same feed ID in addedTargets and removedTargets."))
      as [[_ (x & Ha & Hr)]|[-> _]]; simpl.
    + destruct Hempty as [-> | ->]; by apply elem_of_nil in Ha || 
        by apply elem_of_nil in Hr.
    + do 2 eexists. split; [done|]. split; [done|]. by simplify_map_eq.
Qed.

(** ** More on get and on the channel name *)

(** X17. Where the client's reaction rewrite and endpoint predicate
    leave [mark_read] and [mark_seen] alone, [get] never transmits an
    array under either key: an array is sent as a string and any other
    value as it is. *)
Theorem get_marks_never_arrays
    (replaceReactionOptions : Js.object → Js.object)
    (shouldUseEnrichEndpoint : Js.object → bool * Js.object)
    (f : Feed.StreamFeed) (options q : Js.object) (k : string)
    (v : Js.value) :
  k = "mark_read" ∨ k = "mark_seen" →
  Spec.client_rewrite replaceReactionOptions shouldUseEnrichEndpoint options
    !! k = options !! k →
  Request.qs (Feed.get replaceReactionOptions shouldUseEnrichEndpoint f options)
    = Some q →
  q !! k = Some v →
  Spec.is_array v = false.
Proof.
  intros Hk Hkeep. rewrite get_qs. intros [= <-].
  rewrite shallow_union_lookup, marking_overrides_lookup.
  rewrite bool_decide_eq_true_2 by done.
  unfold Spec.serialized_mark. rewrite Hkeep.
  destruct (options !! k) as [[]|]; intros [= <-]; done.
Qed.

(** X18. The channel name is fixed when the feed is built, while
    [subscribe] checks the app id when it is called: a feed built on a
    client without an app id keeps the channel
    [site-undefined-feed-<joined>], and subscribes on that channel once
    an app id is configured. *)
Theorem channel_fixed_at_construction
    (feedSlugRule : string → option string)
    (userIdRule : Feed.userIdArg → option string)
    (c c' : Client.StreamClient) (slug userId : string)
    (token : option string) (f : Feed.StreamFeed) (cb : Faye.Callback) :
  Feed.constructor feedSlugRule userIdRule c slug userId token = Return f →
  Client.appId c = None →
  Feed.truthy_opt (Client.appId c') = true →
  ∃ h c'',
    Feed.subscribe f cb c' = (Return h, c'')
    ∧ Faye.channel h = "/site-undefined-feed-" +:+ slug +:+ userId
    ∧ is_Some (Client.subscriptions c''
                 !! ("/site-undefined-feed-" +:+ slug +:+ userId)).
Proof.
  intros (tok & _ & _ & _ & _ & _ & ->)%constructor_Return Hnone Happ.
  do 2 eexists. split; [by apply subscribe_ok|].
  unfold Spec.channel_key. cbn [Feed.notificationChannel]. rewrite Hnone.
  split; [done|]. simpl. rewrite lookup_insert_eq. by eexists.
Qed.

(** * The further properties at work on the sample feeds *)

Lemma sample_constructor_ab_c :
  Sample.constructor Sample.client "ab" "c" (Some "secret")
  = Return Sample.feed_ab_c.
Proof. reflexivity. Qed.

Lemma sample_constructor_a_bc :
  Sample.constructor Sample.client "a" "bc" (Some "secret")
  = Return Sample.feed_a_bc.
Proof. reflexivity. Qed.

Lemma feed_id_determines_feed_witness :
  ∃ f1 f2,
    Sample.constructor Sample.client "user" "1" (Some "secret") = Return f1
    ∧ Sample.constructor Sample.client_no_app "user" "1" (Some "other")
      = Return f2
    ∧ Feed.signature f1 ≠ Feed.signature f2
    ∧ Feed.feedUrl f1 = Feed.feedUrl f2
    ∧ Feed.feedTogether f1 = Feed.feedTogether f2.
Proof.
  eexists _, _. split; [reflexivity|]. split; [reflexivity|].
  split; [discriminate|].
  apply (feed_id_determines_feed Sample.feedSlugRule Sample.userIdRule
           Sample.client Sample.client_no_app "user" "1" "user" "1"
           (Some "secret") (Some "other"));
    reflexivity.
Defined.

Lemma joined_form_shares_channel_witness :
  Feed.id Sample.feed_ab_c ≠ Feed.id Sample.feed_a_bc
  ∧ Feed.notificationChannel Sample.feed_ab_c
    = Feed.notificationChannel Sample.feed_a_bc
  ∧ ∃ h c1 c2,
      Feed.subscribe Sample.feed_ab_c (Faye.Handler 1) Sample.client
        = (Return h, c1)
      ∧ Feed.unsubscribe Sample.feed_a_bc c1 = (Return tt, c2)
      ∧ ¬ Faye.is_active h (Client.fayeClient c2).
Proof.
  split; [discriminate|].
  destruct (joined_form_shares_channel Sample.feedSlugRule Sample.userIdRule
              Sample.client "ab" "c" "a" "bc" (Some "secret") (Some "secret")
              Sample.feed_ab_c Sample.feed_a_bc (Faye.Handler 1))
    as (Hchan & h & c1 & c2 & Hsub & _ & Hunsub & _ & Hclosed);
    [reflexivity | reflexivity | reflexivity | reflexivity |].
  split; [exact Hchan|]. exists h, c1, c2. repeat split; assumption.
Defined.

Lemma subscribe_opens_fresh_handle_witness :
  ∃ h c',
    Feed.subscribe Sample.feed (Faye.Handler 1) Sample.client = (Return h, c')
    ∧ Faye.is_active h (Client.fayeClient c')
    ∧ Faye.channel h = "/site-42-feed-user1".
Proof.
  destruct (subscribe_opens_fresh_handle Sample.feed (Faye.Handler 1)
              Sample.client)
    as (h & c' & Hsub & _ & _ & Hopen & Hchan & _);
    [reflexivity | exact sample_client_consistent |].
  exists h, c'. repeat split; assumption.
Defined.

Lemma subscribe_unsubscribe_restores_witness :
  Client.subscriptions
    (Feed.unsubscribe Sample.feed
       (Feed.subscribe Sample.feed (Faye.Handler 1) Sample.client).2).2
  = Client.subscriptions Sample.client.
Proof.
  apply (subscribe_unsubscribe_restores Sample.feed (Faye.Handler 1)
           Sample.client);
    [reflexivity | exact sample_client_consistent | reflexivity].
Defined.

Lemma unregistered_handle_stays_open_witness :
  Faye.is_active
    {| Faye.handle := 0;
       Faye.channel := "/site-42-feed-user1";
       Faye.callback := Faye.Handler 1 |}
    (Client.fayeClient
       (Spec.after Sample.feed
          [Spec.Unsubscribe; Spec.Subscribe (Faye.Handler 3);
           Spec.Unsubscribe]
          (Spec.after Sample.feed
             [Spec.Subscribe (Faye.Handler 1);
              Spec.Subscribe (Faye.Handler 2)]
             Sample.client))).
Proof.
  apply unregistered_handle_stays_open.
  - apply after_consistent, sample_client_consistent.
  - reflexivity.
  - intros e. vm_compute. intros [= <-]. discriminate.
Defined.

Lemma other_channel_undisturbed_witness :
  is_Some
    (Client.subscriptions
       (Spec.after Sample.feed
          [Spec.Subscribe (Faye.Handler 2); Spec.Unsubscribe]
          (Spec.after Sample.feed_ab_c [Spec.Subscribe (Faye.Handler 1)]
             Sample.client))
     !! "/site-42-feed-abc").
Proof.
  eexists.
  apply (other_channel_undisturbed Sample.feed
           [Spec.Subscribe (Faye.Handler 2); Spec.Unsubscribe]
           (Spec.after Sample.feed_ab_c [Spec.Subscribe (Faye.Handler 1)]
              Sample.client) "/site-42-feed-abc").
  - apply after_consistent, sample_client_consistent.
  - discriminate.
  - reflexivity.
Defined.

Lemma no_app_id_opens_nothing_witness :
  Faye.fresh
    (Client.fayeClient
       (Spec.after Sample.feed
          [Spec.Subscribe (Faye.Handler 1); Spec.Unsubscribe;
           Spec.Subscribe (Faye.Handler 2)]
          Sample.client_no_app))
  = 0.
Proof.
  apply (no_app_id_opens_nothing Sample.feed
           [Spec.Subscribe (Faye.Handler 1); Spec.Unsubscribe;
            Spec.Subscribe (Faye.Handler 2)] Sample.client_no_app).
  reflexivity.
Defined.

Lemma unfollow_request_witness :
  ∃ r,
    Sample.unfollow Sample.feed "user" "2" {[ "keepHistory" := Js.VBool true ]}
      = Return r
    ∧ Request.url r = "feed/user/1/following/user:2/"
    ∧ Request.qs r = Some {[ "keep_history" := Js.VStr "1" ]}.
Proof.
  destruct (unfollow_request Sample.feedSlugRule Sample.userIdRule
              Sample.feed "user" "2" {[ "keepHistory" := Js.VBool true ]})
    as (_ & Hret).
  destruct (Hret _ eq_refl) as (_ & Hurl & _ & _ & Hkeep & _).
  eexists. split; [reflexivity|]. split; [exact Hurl|].
  apply Hkeep. reflexivity.
Defined.

Lemma unfollow_addresses_follow_target_witness :
  ∃ r',
    Sample.unfollow Sample.feed "user" "2" ∅ = Return r'
    ∧ Request.url r' = "feed/user/1/following/user:2/".
Proof.
  destruct (unfollow_addresses_follow_target Sample.feedSlugRule
              Sample.userIdRule Sample.feed "user" "2" (Feed.TargetUser "2")
              {[ "limit" := Js.VNum 5 ]} ∅
              {| Request.method := Request.POST;
                 Request.url := "feed/user/1/following/";
                 Request.qs := None;
                 Request.body :=
                   Some (<["activity_copy_limit" := Js.VNum 5]>
                           {[ "target" := Js.VStr "user:2" ]});
                 Request.signature := "user1 secret" |}
              (<["activity_copy_limit" := Js.VNum 5]>
                 {[ "target" := Js.VStr "user:2" ]})
              "user:2")
    as (r' & Hr' & Hurl & _);
    [by right | reflexivity | reflexivity | reflexivity |].
  exists r'. split; [exact Hr' | exact Hurl].
Defined.

Lemma following_followers_query_witness :
  ∃ q,
    Request.qs (Feed.following Sample.feed Sample.follow_options) = Some q
    ∧ q !! "filter" = Some (Js.VStr "user:1,user:2")
    ∧ q !! "limit" = Some (Js.VNum 10)
    ∧ q !! "offset" = None.
Proof.
  destruct (following_followers_query Sample.feed Sample.follow_options)
    as (q & Hfollowing & _ & Hfilter & Hlimit & Hoffset & _).
  exists q. rewrite Hfollowing. repeat split; assumption.
Defined.

Lemma addActivity_actor_witness :
  ∃ b,
    Request.body
      (Feed.addActivity Sample.replaceStreamObjects Sample.feed (Some "SU:7")
         {[ "verb" := Js.VStr "like"; "object" := Js.VStr "post:1" ]})
    = Some b
    ∧ b !! "actor" = Some (Js.VStr "SU:7")
    ∧ b !! "verb" = Some (Js.VStr "like").
Proof.
  destruct (addActivity_actor Sample.replaceStreamObjects Sample.feed
              (Some "SU:7")
              {[ "verb" := Js.VStr "like"; "object" := Js.VStr "post:1" ]})
    as (b & Hb & Hother & _ & _ & Hfill).
  exists b. rewrite Hb. split; [reflexivity|]. split.
  - apply (Hfill "SU:7"); [reflexivity|]. left. reflexivity.
  - rewrite Hother by discriminate. reflexivity.
Defined.

Lemma requests_signed_and_slash_terminated_witness :
  ∃ r,
    Sample.follow Sample.feed "user" (Feed.TargetId "2") ∅ = Return r
    ∧ Request.signature r = "user1 secret"
    ∧ Spec.last_char (Request.url r) = Some "/"%char.
Proof.
  destruct (requests_signed_and_slash_terminated Sample.feedSlugRule
              Sample.userIdRule Sample.replaceReactionOptions
              Sample.shouldUseEnrichEndpoint Sample.replaceStreamObjects
              Sample.feed)
    as (_ & _ & _ & _ & _ & _ & Hfollow & _).
  eexists. split; [reflexivity|].
  apply (Hfollow "user" (Feed.TargetId "2") ∅). reflexivity.
Defined.

Lemma getActivityDetail_query_witness :
  ∃ q,
    Request.qs
      (Feed.getActivityDetail Sample.replaceReactionOptions
         Sample.shouldUseEnrichEndpoint Sample.feed "act-1"
         (Some {[ "limit" := Js.VNum 5 ]})) = Some q
    ∧ q !! "id_lte" = Some (Js.VStr "act-1")
    ∧ q !! "id_gte" = Some (Js.VStr "act-1")
    ∧ q !! "limit" = Some (Js.VNum 5).
Proof.
  destruct (getActivityDetail_query Sample.replaceReactionOptions
              Sample.shouldUseEnrichEndpoint Sample.feed "act-1"
              (Some {[ "limit" := Js.VNum 5 ]}))
    as (q & Hq & _ & _ & Hdefaults).
  exists q. split; [exact Hq|]. apply Hdefaults. reflexivity.
Defined.

Lemma updateActivityToTargets_empty_lists_witness :
  ∃ r b,
    Feed.updateActivityToTargets Sample.feed "fid" "2024" None
      (Some []) (Some ["x"; "y"]) = Return r
    ∧ Request.body r = Some b
    ∧ b !! "added_targets" = Some (Js.VArr [])
    ∧ b !! "removed_targets" = Some (Js.VArr ["x"; "y"]).
Proof.
  destruct (updateActivityToTargets_empty_lists Sample.feed "fid" "2024"
              [] ["x"; "y"]) as (_ & Hempty);
    [discriminate | discriminate |].
  apply Hempty. left. reflexivity.
Defined.

Lemma get_marks_never_arrays_witness :
  Request.qs (Sample.get Sample.feed Sample.options)
    = Some (Spec.shallow_union
              (Spec.client_rewrite Sample.replaceReactionOptions
                 Sample.shouldUseEnrichEndpoint Sample.options)
              (Spec.marking_overrides Sample.options))
  ∧ Spec.is_array (Js.VStr "a,b") = false.
Proof.
  split; [reflexivity|].
  apply (get_marks_never_arrays Sample.replaceReactionOptions
           Sample.shouldUseEnrichEndpoint Sample.feed Sample.options
           (Spec.shallow_union
              (Spec.client_rewrite Sample.replaceReactionOptions
                 Sample.shouldUseEnrichEndpoint Sample.options)
              (Spec.marking_overrides Sample.options))
           "mark_read" (Js.VStr "a,b"));
    [by left | reflexivity | reflexivity | reflexivity].
Defined.

Lemma channel_fixed_at_construction_witness :
  ∃ h c'',
    Feed.subscribe
      {| Feed.token := "secret";
         Feed.id := "user:1";
         Feed.slug := "user";
         Feed.userId := "1";
         Feed.feedUrl := "user/1";
         Feed.feedTogether := "user1";
         Feed.signature := "user1 secret";
         Feed.notificationChannel := "site-undefined-feed-user1" |}
      (Faye.Handler 1) Sample.client = (Return h, c'')
    ∧ Faye.channel h = "/site-undefined-feed-user1".
Proof.
  destruct (channel_fixed_at_construction Sample.feedSlugRule
              Sample.userIdRule Sample.client_no_app Sample.client
              "user" "1" (Some "secret") _ (Faye.Handler 1) eq_refl)
    as (h & c'' & Hsub & Hchan & _); [reflexivity | reflexivity |].
  exists h, c''. split; [exact Hsub | exact Hchan].
Defined.
